(** * The habit tracker contract ([habit::contract])

    A shallow embedding of the Move module
    [contract/habit/build/habit/sources/contract.move] and the properties
    of its state-transition engine: creation, check-in with the streak
    algorithm, owner-gated update and delete, and the read-only views.

    Conventions.
    - [u64] and [u8] values are integers in [Z]; Move arithmetic is checked,
      so every [+], [-], [*], [/] and [%] of the source is an operation that
      either returns the exact result or aborts the transaction.
    - A [&mut Habit] parameter is passed explicitly: the function receives
      the habit and returns the mutated one.
    - The transaction context, the emitted events and the objects handed to
      [transfer] live in a store threaded by the [Tx] monad; an abort
      discards the store, as the Move VM discards a failed transaction. *)

From Stdlib Require Import String.
From Stdlib Require Import ZArith List Bool Lia.
From Stdlib Require Import Init.Byte Strings.Byte.
Import ListNotations.
Local Open Scope Z_scope.

(* ================================================================= *)
(** ** Aborts and results *)

(** The module an abort code belongs to: the VM reports the pair. *)
Inductive Location : Type :=
| HabitContract          (* habit::contract *)
| StdString.             (* std::string *)

Inductive Failure : Type :=
| MoveAbort (loc : Location) (code : Z)   (* abort / failed assert! *)
| ArithmeticError.                         (* overflow, underflow, division by zero *)

Inductive Result (A : Type) : Type :=
| Ok (a : A)
| Err (e : Failure).
Arguments Ok {A} a.
Arguments Err {A} e.

Definition bindR {A B} (r : Result A) (k : A -> Result B) : Result B :=
  match r with
  | Ok a => k a
  | Err e => Err e
  end.

Declare Scope result_scope.
Delimit Scope result_scope with result.
Notation "'try' x <- e ; k" := (bindR e (fun x => k))
  (at level 10, x name, e at level 100, k at level 200) : result_scope.

(* ================================================================= *)
(** ** Constants of the module *)

Definition E_ALREADY_CHECKED_IN : Z := 1.
Definition E_NOT_OWNER : Z := 2.
Definition E_INVALID_DATE : Z := 3.
Definition E_INVALID_GOAL_TYPE : Z := 4.

Definition GOAL_TYPE_MONTHLY : Z := 2.

Definition MS_PER_DAY : Z := 86400000.

(** [std::string::EINVALID_UTF8]. *)
Definition EINVALID_UTF8 : Z := 1.

Definition MAX_U64 : Z := 18446744073709551615.

Definition is_u64 (x : Z) : Prop := 0 <= x <= MAX_U64.

(* ================================================================= *)
(** ** Checked [u64] arithmetic *)

Definition add_u64 (a b : Z) : Result Z :=
  if a + b <=? MAX_U64 then Ok (a + b) else Err ArithmeticError.

Definition sub_u64 (a b : Z) : Result Z :=
  if b <=? a then Ok (a - b) else Err ArithmeticError.

Definition mul_u64 (a b : Z) : Result Z :=
  if a * b <=? MAX_U64 then Ok (a * b) else Err ArithmeticError.

Definition div_u64 (a b : Z) : Result Z :=
  if b =? 0 then Err ArithmeticError else Ok (a / b).

Definition mod_u64 (a b : Z) : Result Z :=
  if b =? 0 then Err ArithmeticError else Ok (a mod b).

(* ================================================================= *)
(** ** Data structures *)

Definition address : Type := Z.
Definition ID : Type := address.
Definition UID : Type := ID.

(** [std::string::String]: a byte vector known to be valid UTF-8. *)
Definition String : Type := list byte.

Record Habit : Type := mkHabit {
  id : UID;
  owner : address;
  name : String;
  description : String;
  emoji : String;
  created_at : Z;
  goal_type : Z;
  goal_count : Z;
  total_checkins : Z;
  current_streak : Z;
  longest_streak : Z;
  last_checkin_date : option Z;
  is_public : bool
}.

Record CheckIn : Type := mkCheckIn {
  checkin_id : UID;
  habit_id : ID;
  date : Z;
  notes : option String
}.

Inductive Event : Type :=
| HabitCreated (habit_id : ID) (owner : address) (name : String)
| CheckInRecorded (habit_id : ID) (date new_streak total_checkins : Z)
| StreakBroken (habit_id : ID) (previous_streak : Z)
| HabitUpdated (habit_id : ID)
| HabitDeleted (habit_id : ID).

(** Field assignments [habit.f = v]. *)
Definition set_name (h : Habit) (v : String) : Habit :=
  mkHabit (id h) (owner h) v (description h) (emoji h) (created_at h)
    (goal_type h) (goal_count h) (total_checkins h) (current_streak h)
    (longest_streak h) (last_checkin_date h) (is_public h).

Definition set_description (h : Habit) (v : String) : Habit :=
  mkHabit (id h) (owner h) (name h) v (emoji h) (created_at h)
    (goal_type h) (goal_count h) (total_checkins h) (current_streak h)
    (longest_streak h) (last_checkin_date h) (is_public h).

Definition set_emoji (h : Habit) (v : String) : Habit :=
  mkHabit (id h) (owner h) (name h) (description h) v (created_at h)
    (goal_type h) (goal_count h) (total_checkins h) (current_streak h)
    (longest_streak h) (last_checkin_date h) (is_public h).

Definition set_goal_type (h : Habit) (v : Z) : Habit :=
  mkHabit (id h) (owner h) (name h) (description h) (emoji h) (created_at h)
    v (goal_count h) (total_checkins h) (current_streak h)
    (longest_streak h) (last_checkin_date h) (is_public h).

Definition set_goal_count (h : Habit) (v : Z) : Habit :=
  mkHabit (id h) (owner h) (name h) (description h) (emoji h) (created_at h)
    (goal_type h) v (total_checkins h) (current_streak h)
    (longest_streak h) (last_checkin_date h) (is_public h).

Definition set_total_checkins (h : Habit) (v : Z) : Habit :=
  mkHabit (id h) (owner h) (name h) (description h) (emoji h) (created_at h)
    (goal_type h) (goal_count h) v (current_streak h)
    (longest_streak h) (last_checkin_date h) (is_public h).

Definition set_current_streak (h : Habit) (v : Z) : Habit :=
  mkHabit (id h) (owner h) (name h) (description h) (emoji h) (created_at h)
    (goal_type h) (goal_count h) (total_checkins h) v
    (longest_streak h) (last_checkin_date h) (is_public h).

Definition set_longest_streak (h : Habit) (v : Z) : Habit :=
  mkHabit (id h) (owner h) (name h) (description h) (emoji h) (created_at h)
    (goal_type h) (goal_count h) (total_checkins h) (current_streak h)
    v (last_checkin_date h) (is_public h).

Definition set_last_checkin_date (h : Habit) (v : option Z) : Habit :=
  mkHabit (id h) (owner h) (name h) (description h) (emoji h) (created_at h)
    (goal_type h) (goal_count h) (total_checkins h) (current_streak h)
    (longest_streak h) v (is_public h).

Definition set_is_public (h : Habit) (v : bool) : Habit :=
  mkHabit (id h) (owner h) (name h) (description h) (emoji h) (created_at h)
    (goal_type h) (goal_count h) (total_checkins h) (current_streak h)
    (longest_streak h) (last_checkin_date h) v.

(* ================================================================= *)
(** ** The transaction context and the store of one transaction *)

Record TxContext : Type := mkTxContext {
  sender : address;
  tx_hash : Z;
  epoch_timestamp_ms : Z;
  ids_created : Z
}.

(** What the framework's native functions compute is outside the module:
    the UTF-8 check behind [string::utf8] and the derivation of a fresh
    object id from the transaction hash and a counter. *)
Class Natives : Type := {
  internal_check_utf8 : list byte -> bool;
  derive_id : Z -> Z -> address
}.

Record Store : Type := mkStore {
  ctx : TxContext;                        (* the [&mut TxContext] *)
  emitted : list Event;                   (* [event::emit], oldest first *)
  transferred : list (CheckIn * address); (* [transfer::transfer] *)
  shared : list Habit;                    (* [transfer::share_object] *)
  deleted : list UID                      (* [object::delete] *)
}.

Definition Tx (A : Type) : Type := Store -> Result (A * Store).

Definition ret {A} (a : A) : Tx A := fun s => Ok (a, s).

Definition bind {A B} (m : Tx A) (k : A -> Tx B) : Tx B :=
  fun s =>
    match m s with
    | Ok (a, s') => k a s'
    | Err e => Err e
    end.

Definition lift {A} (r : Result A) : Tx A :=
  fun s =>
    match r with
    | Ok a => Ok (a, s)
    | Err e => Err e
    end.

Definition abort {A} (code : Z) : Tx A :=
  fun _ => Err (MoveAbort HabitContract code).

Definition assert (cond : bool) (code : Z) : Tx unit :=
  if cond then ret tt else abort code.

Declare Scope tx_scope.
Delimit Scope tx_scope with tx.
Notation "'do' x <- e ; k" := (bind e (fun x => k))
  (at level 10, x name, e at level 100, k at level 200) : tx_scope.
Notation "e ;; k" := (bind e (fun _ => k))
  (at level 100, k at level 200, right associativity) : tx_scope.
Local Open Scope tx_scope.

(** The framework calls the module makes.  [iota::tx_context],
    [iota::object], [iota::transfer], [iota::event] and [std::string] are
    dependencies of the contract; each call is modelled by its effect on
    the store. *)
Definition tx_sender : Tx address :=
  fun s => Ok (sender (ctx s), s).

Definition tx_epoch_timestamp_ms : Tx Z :=
  fun s => Ok (epoch_timestamp_ms (ctx s), s).

Definition emit (e : Event) : Tx unit :=
  fun s => Ok (tt, mkStore (ctx s) (emitted s ++ [e]) (transferred s)
                     (shared s) (deleted s)).

Definition transfer (c : CheckIn) (recipient : address) : Tx unit :=
  fun s => Ok (tt, mkStore (ctx s) (emitted s) (transferred s ++ [(c, recipient)])
                     (shared s) (deleted s)).

Definition share_object (h : Habit) : Tx unit :=
  fun s => Ok (tt, mkStore (ctx s) (emitted s) (transferred s)
                     (shared s ++ [h]) (deleted s)).

Definition object_delete (u : UID) : Tx unit :=
  fun s => Ok (tt, mkStore (ctx s) (emitted s) (transferred s)
                     (shared s) (deleted s ++ [u])).

Definition object_id (h : Habit) : ID := id h.

Section Contract.

Context {natives : Natives}.

(** [object::new]: a fresh id, and the context's counter goes up by one. *)
Definition object_new : Tx UID :=
  fun s =>
    let c := ctx s in
    match add_u64 (ids_created c) 1 with
    | Ok n =>
        Ok (derive_id (tx_hash c) (ids_created c),
            mkStore (mkTxContext (sender c) (tx_hash c) (epoch_timestamp_ms c) n)
              (emitted s) (transferred s) (shared s) (deleted s))
    | Err e => Err e
    end.

(** [string::utf8]. *)
Definition utf8 (bytes : list byte) : Tx String :=
  fun s =>
    if internal_check_utf8 bytes then Ok (bytes, s)
    else Err (MoveAbort StdString EINVALID_UTF8).

(* ================================================================= *)
(** ** Helper functions *)

(** [get_date_timestamp]: round down to the start of the day. *)
Definition get_date_timestamp (timestamp_ms : Z) : Result Z :=
  (try r <- mod_u64 timestamp_ms MS_PER_DAY ;
   sub_u64 timestamp_ms r)%result.

(* ================================================================= *)
(** ** Entry functions *)

Definition create_habit (name description emoji : list byte)
    (goal_type goal_count : Z) (is_public : bool) : Tx ID :=
  assert (goal_type <=? GOAL_TYPE_MONTHLY) E_INVALID_GOAL_TYPE ;;
  do uid <- object_new ;
  do owner <- tx_sender ;
  do name_s <- utf8 name ;
  do description_s <- utf8 description ;
  do emoji_s <- utf8 emoji ;
  do created_at <- tx_epoch_timestamp_ms ;
  let habit :=
    mkHabit uid owner name_s description_s emoji_s created_at
      goal_type goal_count 0 0 0 None is_public in
  let habit_id := object_id habit in
  share_object habit ;;
  do ev_owner <- tx_sender ;
  do ev_name <- utf8 name ;
  emit (HabitCreated habit_id ev_owner ev_name) ;;
  ret habit_id.

Definition check_in (habit : Habit) (notes : list byte) : Tx Habit :=
  do now <- tx_epoch_timestamp_ms ;
  do today <- lift (get_date_timestamp now) ;
  (* Already checked in today? *)
  match last_checkin_date habit with
  | Some last_date => assert (negb (last_date =? today)) E_ALREADY_CHECKED_IN
  | None => ret tt
  end ;;
  do yesterday <- lift (sub_u64 today MS_PER_DAY) ;
  (* Update streak logic *)
  do habit <-
    match last_checkin_date habit with
    | Some last_date =>
        if last_date =? yesterday then
          (* Consecutive day - increment streak *)
          do cs <- lift (add_u64 (current_streak habit) 1) ;
          ret (set_current_streak habit cs)
        else if last_date <? yesterday then
          (* Streak broken - reset and update longest *)
          let habit :=
            if longest_streak habit <? current_streak habit
            then set_longest_streak habit (current_streak habit)
            else habit in
          let previous_streak := current_streak habit in
          let habit := set_current_streak habit 1 in
          emit (StreakBroken (object_id habit) previous_streak) ;;
          ret habit
        else
          (* Future date or same day - shouldn't happen *)
          abort E_INVALID_DATE
    | None =>
        (* First check-in ever *)
        ret (set_current_streak habit 1)
    end ;
  (* Update habit statistics *)
  do tc <- lift (add_u64 (total_checkins habit) 1) ;
  let habit := set_total_checkins habit tc in
  let habit := set_last_checkin_date habit (Some today) in
  (* Update longest streak if current is better *)
  let habit :=
    if longest_streak habit <? current_streak habit
    then set_longest_streak habit (current_streak habit)
    else habit in
  (* Create check-in record *)
  do notes_option <-
    (if 0 <? Z.of_nat (length notes)
     then do s <- utf8 notes ; ret (Some s)
     else ret None) ;
  do uid <- object_new ;
  let checkin := mkCheckIn uid (object_id habit) today notes_option in
  do recipient <- tx_sender ;
  transfer checkin recipient ;;
  emit (CheckInRecorded (object_id habit) today
          (current_streak habit) (total_checkins habit)) ;;
  ret habit.

Definition update_habit (habit : Habit)
    (name description emoji : option String)
    (goal_type goal_count : option Z) (is_public : option bool) : Tx Habit :=
  do caller <- tx_sender ;
  assert (owner habit =? caller) E_NOT_OWNER ;;
  let habit :=
    match name with Some v => set_name habit v | None => habit end in
  let habit :=
    match description with Some v => set_description habit v | None => habit end in
  let habit :=
    match emoji with Some v => set_emoji habit v | None => habit end in
  do habit <-
    match goal_type with
    | Some gt =>
        assert (gt <=? GOAL_TYPE_MONTHLY) E_INVALID_GOAL_TYPE ;;
        ret (set_goal_type habit gt)
    | None => ret habit
    end ;
  let habit :=
    match goal_count with Some v => set_goal_count habit v | None => habit end in
  let habit :=
    match is_public with Some v => set_is_public habit v | None => habit end in
  emit (HabitUpdated (object_id habit)) ;;
  ret habit.

(** [delete_habit] takes the habit by value and destroys it. *)
Definition delete_habit (habit : Habit) : Tx unit :=
  do caller <- tx_sender ;
  assert (owner habit =? caller) E_NOT_OWNER ;;
  let habit_id := object_id habit in
  object_delete (id habit) ;;
  emit (HabitDeleted habit_id).

(* ================================================================= *)
(** ** View functions *)

Definition get_habit_info (habit : Habit)
  : address * String * String * String * Z * Z * Z * Z * Z * Z * bool :=
  (owner habit, name habit, description habit, emoji habit, created_at habit,
   goal_type habit, goal_count habit, total_checkins habit,
   current_streak habit, longest_streak habit, is_public habit).

Definition get_completion_rate (habit : Habit) (period_days : Z) : Result Z :=
  (if (total_checkins habit =? 0) || (period_days =? 0) then Ok 0
   else
     try expected <- mul_u64 period_days (goal_count habit) ;
     if expected =? 0 then Ok 0
     else
       try scaled <- mul_u64 (total_checkins habit) 100 ;
       try rate <- div_u64 scaled expected ;
       if 100 <? rate then Ok 100 else Ok rate)%result.

Definition can_check_in_today (habit : Habit) (c : TxContext) : Result bool :=
  (let now := epoch_timestamp_ms c in
   try today <- get_date_timestamp now ;
   match last_checkin_date habit with
   | Some last_date => Ok (negb (last_date =? today))
   | None => Ok true
   end)%result.

Definition get_days_since_creation (habit : Habit) (c : TxContext) : Result Z :=
  (let now := epoch_timestamp_ms c in
   try created <- get_date_timestamp (created_at habit) ;
   try current <- get_date_timestamp now ;
   if current <? created then Ok 0
   else
     try d <- sub_u64 current created ;
     div_u64 d MS_PER_DAY)%result.

End Contract.

(* ================================================================= *)
(** ** Transactions against one habit record

    The ledger holds the shared [Habit] object, the [CheckIn] receipts
    handed to their recipients and the event log.  A transaction runs an
    entry function on a store that starts empty; when the function returns,
    its effects are committed, and when it aborts the ledger stays as it
    was. *)

Record Ledger : Type := mkLedger {
  record : option Habit;                 (* [None] once deleted *)
  receipts : list (CheckIn * address);
  log : list Event
}.

Inductive Call : Type :=
| CheckInCall (notes : list byte)
| UpdateCall (name description emoji : option String)
    (goal_type goal_count : option Z) (is_public : option bool)
| DeleteCall.

Inductive Outcome : Type :=
| Success
| Failed (e : Failure)
| NoObject.                              (* the habit no longer exists *)

(** A check-in call that went through. *)
Definition checked_in (call : Call) (o : Outcome) : bool :=
  match call, o with
  | CheckInCall _, Success => true
  | _, _ => false
  end.

Definition start (c : TxContext) : Store := mkStore c [] [] [] [].

Definition commit (l : Ledger) (r : option Habit) (s : Store) : Ledger :=
  mkLedger r (receipts l ++ transferred s) (log l ++ emitted s).

Section Transactions.

Context {natives : Natives}.

Definition execute (l : Ledger) (call : Call) (c : TxContext)
  : Ledger * Outcome :=
  match record l with
  | None => (l, NoObject)
  | Some h =>
      match call with
      | CheckInCall notes =>
          match check_in h notes (start c) with
          | Ok (h', s) => (commit l (Some h') s, Success)
          | Err e => (l, Failed e)
          end
      | UpdateCall n d e gt gc p =>
          match update_habit h n d e gt gc p (start c) with
          | Ok (h', s) => (commit l (Some h') s, Success)
          | Err e => (l, Failed e)
          end
      | DeleteCall =>
          match delete_habit h (start c) with
          | Ok (_, s) => (commit l None s, Success)
          | Err e => (l, Failed e)
          end
      end
  end.

(** A [create_habit] transaction on an empty ledger. *)
Definition execute_create (name description emoji : list byte)
    (goal_type goal_count : Z) (is_public : bool) (c : TxContext)
  : Result Ledger :=
  match create_habit name description emoji goal_type goal_count is_public
          (start c) with
  | Ok (_, s) => Ok (mkLedger (hd_error (shared s)) (transferred s) (emitted s))
  | Err e => Err e
  end.

Fixpoint run (l : Ledger) (calls : list (Call * TxContext)) : Ledger :=
  match calls with
  | [] => l
  | (call, c) :: rest => run (fst (execute l call c)) rest
  end.

(** The check-in calls of a trace that went through. *)
Fixpoint successful_checkins (l : Ledger) (calls : list (Call * TxContext))
  : nat :=
  match calls with
  | [] => 0%nat
  | (call, c) :: rest =>
      let (l', o) := execute l call c in
      if checked_in call o then S (successful_checkins l' rest)
      else successful_checkins l' rest
  end.

Inductive Reachable : Ledger -> Prop :=
| reach_create : forall n d e gt gc p c l,
    execute_create n d e gt gc p c = Ok l -> Reachable l
| reach_step : forall l call c,
    Reachable l -> Reachable (fst (execute l call c)).

End Transactions.

(** Events of one kind in a log. *)
Definition is_streak_broken (e : Event) : bool :=
  match e with StreakBroken _ _ => true | _ => false end.

Definition is_habit_updated (e : Event) : bool :=
  match e with HabitUpdated _ => true | _ => false end.

(** [day_id] of the design document: the start of the day of a timestamp. *)
Definition day_id (timestamp_ms : Z) : Z :=
  timestamp_ms - timestamp_ms mod MS_PER_DAY.


(* ================================================================= *)
(** ** The branches of the streak logic *)

(** The three branches of a check-in that goes through: the new
    [current_streak], the [longest_streak] as the branch leaves it, and the
    events the branch emits. *)
Inductive streak_step (h : Habit) (today : Z) : Z -> Z -> list Event -> Prop :=
| step_first :
    last_checkin_date h = None ->
    streak_step h today 1 (longest_streak h) []
| step_consecutive :
    last_checkin_date h = Some (today - MS_PER_DAY) ->
    current_streak h + 1 <= MAX_U64 ->
    streak_step h today (current_streak h + 1) (longest_streak h) []
| step_broken : forall last_date,
    last_checkin_date h = Some last_date ->
    last_date < today - MS_PER_DAY ->
    streak_step h today 1 (Z.max (longest_streak h) (current_streak h))
      [StreakBroken (id h) (current_streak h)].

(* ================================================================= *)
(** ** The check-in algorithm as the design document words it

    Section 4.3 of the design document, step by step, over mathematical
    integers: the only failures it names are [AlreadyCheckedInToday] and
    [InvalidDate].  It is compared with [check_in] on epoch day 0. *)

Module Design.

Inductive Error : Type :=
| AlreadyCheckedInToday
| InvalidDate.

Definition check_in (habit : Habit) (now : Z)
  : Error + (Habit * list Event) :=
  let today := day_id now in
  (* step 1 *)
  if match last_checkin_date habit with
     | Some last => last =? today
     | None => false
     end
  then inl AlreadyCheckedInToday
  else
    (* step 2 *)
    let yesterday := today - MS_PER_DAY in
    (* step 3 *)
    let branch : Error + (Habit * list Event) :=
      match last_checkin_date habit with
      | None => inr (set_current_streak habit 1, [])
      | Some last =>
          if last =? yesterday then
            inr (set_current_streak habit (current_streak habit + 1), [])
          else if last <? yesterday then
            let broken := StreakBroken (id habit) (current_streak habit) in
            let habit :=
              if longest_streak habit <? current_streak habit
              then set_longest_streak habit (current_streak habit)
              else habit in
            inr (set_current_streak habit 1, [broken])
          else
            (* the case left: a recorded date ahead of yesterday that is
               not today, which the document names as a date in the
               future *)
            inl InvalidDate
      end in
    match branch with
    | inl e => inl e
    | inr (habit, events) =>
        (* step 4 *)
        let habit := set_total_checkins habit (total_checkins habit + 1) in
        let habit := set_last_checkin_date habit (Some today) in
        (* step 5 *)
        let habit :=
          if longest_streak habit <? current_streak habit
          then set_longest_streak habit (current_streak habit)
          else habit in
        (* step 7 *)
        inr (habit,
             events ++ [CheckInRecorded (id habit) today
                          (current_streak habit) (total_checkins habit)])
    end.

End Design.

(* ================================================================= *)
(** ** Natives for the worked examples

    The UTF-8 check is the one of RFC 3629 (no overlong forms, no
    surrogates, nothing above U+10FFFF).  The id derivation of the framework
    is a hash; the examples use a stand-in that keeps ids of one transaction
    apart. *)

Definition in_range (lo hi : N) (b : byte) : bool :=
  ((lo <=? Byte.to_N b) && (Byte.to_N b <=? hi))%N.

Definition continuation (b : byte) : bool := in_range 128 191 b.

Fixpoint check_utf8 (bytes : list byte) : bool :=
  match bytes with
  | [] => true
  | b0 :: r0 =>
      if (Byte.to_N b0 <? 128)%N then check_utf8 r0
      else if in_range 194 223 b0 then
        match r0 with
        | b1 :: r1 => continuation b1 && check_utf8 r1
        | _ => false
        end
      else if in_range 224 239 b0 then
        match r0 with
        | b1 :: b2 :: r2 =>
            (if (Byte.to_N b0 =? 224)%N then in_range 160 191 b1
             else if (Byte.to_N b0 =? 237)%N then in_range 128 159 b1
             else continuation b1)
            && continuation b2 && check_utf8 r2
        | _ => false
        end
      else if in_range 240 244 b0 then
        match r0 with
        | b1 :: b2 :: b3 :: r3 =>
            (if (Byte.to_N b0 =? 240)%N then in_range 144 191 b1
             else if (Byte.to_N b0 =? 244)%N then in_range 128 143 b1
             else continuation b1)
            && continuation b2 && continuation b3 && check_utf8 r3
        | _ => false
        end
      else false
  end.

Definition example_natives : Natives :=
  {| internal_check_utf8 := check_utf8;
     derive_id := fun hash counter => hash * 4294967296 + counter |}.

(** The people and the clock of the examples. *)
Definition alice : address := 10.
Definition bob : address := 11.

Definition at_time (who : address) (hash now : Z) : TxContext :=
  mkTxContext who hash now 0.

(** "Run", the runner emoji, a note that is not UTF-8, and "Walk". *)
Definition run_name : list byte := [x52; x75; x6e]%byte.
Definition run_emoji : list byte := [xf0; x9f; x8f; x83]%byte.
Definition bad_note : list byte := [xff]%byte.
Definition walk_name : String := [x57; x61; x6c; x6b]%byte.

(** The habit of the scenario: daily, once a day, created by [alice]. *)
Definition fresh_habit : Habit :=
  mkHabit 4294967296 alice run_name [] run_emoji 1000 0 1 0 0 0 None true.

Definition fresh_ledger : Ledger :=
  mkLedger (Some fresh_habit) []
    [HabitCreated 4294967296 alice run_name].

(** Check-ins on the given timestamps, by [alice], without notes. *)
Definition checkins_at (times : list Z) : list (Call * TxContext) :=
  map (fun t => (CheckInCall [], at_time alice (2 + t / MS_PER_DAY) t)) times.


(** The three counters of the habit of a ledger. *)
Definition counters (l : Ledger) : option (Z * Z * Z) :=
  match record l with
  | Some h => Some (current_streak h, longest_streak h, total_checkins h)
  | None => None
  end.

(** [fresh_habit] after check-ins on days 1, 2 and 3. *)
Definition streak_habit : Habit :=
  mkHabit 4294967296 alice run_name [] run_emoji 1000 0 1 3 3 3
    (Some 259200000) true.

(** One check-in so far, and a goal of two a day. *)
Definition busy_habit : Habit :=
  mkHabit 4294967296 alice run_name [] run_emoji 1000 0 2 1 1 1
    (Some 86400000) true.

(** [fresh_habit] under another id. *)
Definition twin_habit : Habit :=
  mkHabit 5 alice run_name [] run_emoji 1000 0 1 0 0 0 None true.

(* ================================================================= *)
(** ** Definitions for the further properties *)

(** The context after one [object::new]. *)
Definition bump (c : TxContext) : TxContext :=
  mkTxContext (sender c) (tx_hash c) (epoch_timestamp_ms c) (ids_created c + 1).

(** The notes of a receipt: absent for an empty vector. *)
Definition receipt_notes (notes : list byte) : option String :=
  match notes with
  | [] => None
  | _ => Some notes
  end.

Section Receipt.

Context {natives : Natives}.

(** The last part of [check_in], from "Create check-in record" on, as a
    program of its own; [check_in_prefix] shows that [check_in] ends in it.
    [habit] is the habit with its counters updated. *)
Definition issue_receipt (habit : Habit) (today : Z) (notes : list byte)
  : Tx Habit :=
  do notes_option <-
    (if 0 <? Z.of_nat (length notes)
     then do s <- utf8 notes ; ret (Some s)
     else ret None) ;
  do uid <- object_new ;
  let checkin := mkCheckIn uid (object_id habit) today notes_option in
  do recipient <- tx_sender ;
  transfer checkin recipient ;;
  emit (CheckInRecorded (object_id habit) today
          (current_streak habit) (total_checkins habit)) ;;
  ret habit.

(** The outcome of [check_in] on a habit [h], notes and a store whose clock
    is on day [today], in the order in which the code decides it. *)
Inductive check_in_case (h : Habit) (notes : list byte) (s : Store)
    (today : Z) : Result (Habit * Store) -> Prop :=
| case_already :
    last_checkin_date h = Some today ->
    check_in_case h notes s today
      (Err (MoveAbort HabitContract E_ALREADY_CHECKED_IN))
| case_day_zero :
    last_checkin_date h <> Some today ->
    today < MS_PER_DAY ->
    check_in_case h notes s today (Err ArithmeticError)
| case_invalid_date : forall last,
    MS_PER_DAY <= today ->
    last_checkin_date h = Some last ->
    last <> today ->
    today - MS_PER_DAY < last ->
    check_in_case h notes s today
      (Err (MoveAbort HabitContract E_INVALID_DATE))
| case_streak_overflow :
    MS_PER_DAY <= today ->
    last_checkin_date h = Some (today - MS_PER_DAY) ->
    MAX_U64 < current_streak h + 1 ->
    check_in_case h notes s today (Err ArithmeticError)
| case_total_overflow : forall cs ls evs,
    MS_PER_DAY <= today ->
    streak_step h today cs ls evs ->
    MAX_U64 < total_checkins h + 1 ->
    check_in_case h notes s today (Err ArithmeticError)
| case_bad_notes : forall cs ls evs,
    MS_PER_DAY <= today ->
    streak_step h today cs ls evs ->
    total_checkins h + 1 <= MAX_U64 ->
    notes <> [] ->
    internal_check_utf8 notes = false ->
    check_in_case h notes s today (Err (MoveAbort StdString EINVALID_UTF8))
| case_no_id : forall cs ls evs,
    MS_PER_DAY <= today ->
    streak_step h today cs ls evs ->
    total_checkins h + 1 <= MAX_U64 ->
    notes = [] \/ internal_check_utf8 notes = true ->
    MAX_U64 < ids_created (ctx s) + 1 ->
    check_in_case h notes s today (Err ArithmeticError)
| case_checked_in : forall cs ls evs,
    MS_PER_DAY <= today ->
    streak_step h today cs ls evs ->
    total_checkins h + 1 <= MAX_U64 ->
    notes = [] \/ internal_check_utf8 notes = true ->
    ids_created (ctx s) + 1 <= MAX_U64 ->
    check_in_case h notes s today
      (Ok (mkHabit (id h) (owner h) (name h) (description h) (emoji h)
             (created_at h) (goal_type h) (goal_count h)
             (total_checkins h + 1) cs (Z.max ls cs) (Some today)
             (is_public h),
           mkStore (bump (ctx s))
             (emitted s ++ evs ++
              [CheckInRecorded (id h) today cs (total_checkins h + 1)])
             (transferred s ++
              [(mkCheckIn
                  (derive_id (tx_hash (ctx s)) (ids_created (ctx s)))
                  (id h) today (receipt_notes notes), sender (ctx s))])
             (shared s) (deleted s))).

End Receipt.

(** What the streak logic asks of [last_checkin_date] on day [today]: no
    check-in yet, one on an earlier day than yesterday, or one yesterday
    with room to count one more. *)
Definition streak_ready (h : Habit) (today : Z) : Prop :=
  match last_checkin_date h with
  | None => True
  | Some last =>
      last < today - MS_PER_DAY \/
      (last = today - MS_PER_DAY /\ current_streak h + 1 <= MAX_U64)
  end.

Section Traces.

Context {natives : Natives}.

(** A trace of check-ins on consecutive days from [day] on, one a day, each
    with notes that are empty or valid UTF-8 and a transaction that can
    still create an object. *)
Fixpoint daily_checkins (day : Z) (calls : list (Call * TxContext)) : Prop :=
  match calls with
  | [] => True
  | (CheckInCall notes, c) :: rest =>
      0 <= epoch_timestamp_ms c /\
      day_id (epoch_timestamp_ms c) = day /\
      (notes = [] \/ internal_check_utf8 notes = true) /\
      ids_created c + 1 <= MAX_U64 /\
      daily_checkins (day + MS_PER_DAY) rest
  | _ => False
  end.

End Traces.

(** The value an optional argument of [update_habit] leaves in a field. *)
Definition or_else {A : Type} (supplied : option A) (current : A) : A :=
  match supplied with
  | Some v => v
  | None => current
  end.

(** What the transitions keep of the counters and the last check-in day. *)
Definition counters_consistent (h : Habit) : Prop :=
  match last_checkin_date h with
  | None =>
      total_checkins h = 0 /\ current_streak h = 0 /\ longest_streak h = 0
  | Some day =>
      day mod MS_PER_DAY = 0 /\ MS_PER_DAY <= day /\
      1 <= current_streak h /\
      current_streak h <= longest_streak h /\
      longest_streak h <= total_checkins h
  end.

(** The date, streak and total of the latest [CheckInRecorded] of a log. *)
Definition latest_checkin (log : list Event) : option (Z * Z * Z) :=
  fold_left
    (fun acc e =>
       match e with
       | CheckInRecorded _ date new_streak total => Some (date, new_streak, total)
       | _ => acc
       end)
    log None.

(** The same three values as the habit record has them. *)
Definition recorded_state (h : Habit) : option (Z * Z * Z) :=
  match last_checkin_date h with
  | Some day => Some (day, current_streak h, total_checkins h)
  | None => None
  end.

(** The goal type helpers of the client ([types/habit.ts]).  A goal type is
    a string at run time; [goalTypeRaw] is taken to be an integer. *)
Definition goalTypeToNumber (goalType : string) : Z :=
  if String.eqb goalType "daily" then 0
  else if String.eqb goalType "weekly" then 1
  else if String.eqb goalType "monthly" then 2
  else 0.

Definition GOAL_TYPE_MAP (key : Z) : option string :=
  if key =? 0 then Some "daily"%string
  else if key =? 1 then Some "weekly"%string
  else if key =? 2 then Some "monthly"%string
  else None.

Definition goalTypeToString (goalTypeRaw : Z) : string :=
  match GOAL_TYPE_MAP goalTypeRaw with
  | Some goalType => goalType
  | None => "daily"
  end.

Ltac setters :=
  unfold set_name, set_description, set_emoji, set_goal_type, set_goal_count,
    set_total_checkins, set_current_streak, set_longest_streak,
    set_last_checkin_date, set_is_public in *;
  cbn [id owner name description emoji created_at goal_type goal_count
       total_checkins current_streak longest_streak last_checkin_date
       is_public ctx emitted transferred shared deleted
       sender tx_hash epoch_timestamp_ms ids_created] in *.

Ltac arith_facts :=
  unfold add_u64, sub_u64 in *;
  repeat match goal with
  | H : (if ?b then _ else _) = Ok _ |- _ =>
      destruct b eqn:?; [inversion H; subst; clear H | discriminate H]
  | H : negb _ = true |- _ => apply negb_true_iff in H
  | H : negb _ = false |- _ => apply negb_false_iff in H
  | H : (_ =? _) = true |- _ => apply Z.eqb_eq in H
  | H : (_ =? _) = false |- _ => apply Z.eqb_neq in H
  | H : (_ <? _) = true |- _ => apply Z.ltb_lt in H
  | H : (_ <? _) = false |- _ => apply Z.ltb_ge in H
  | H : (_ <=? _) = true |- _ => apply Z.leb_le in H
  | H : (_ <=? _) = false |- _ => apply Z.leb_gt in H
  end.


Ltac solve_rate :=
  repeat split; intros;
  try reflexivity; try discriminate; try (exfalso; lia);
  try (f_equal; lia);
  try match goal with E : Ok _ = Ok _ |- _ => inversion E; lia end.

(* ================================================================= *)
(** ** Basic facts *)

Section Facts.

Context {natives : Natives}.

Lemma mod_MS_bounds t : 0 <= t mod MS_PER_DAY < MS_PER_DAY.
Proof. apply Z.mod_pos_bound. reflexivity. Qed.

Lemma get_date_timestamp_nonneg t :
  0 <= t -> get_date_timestamp t = Ok (day_id t).
Proof.
  intros Ht. unfold get_date_timestamp, mod_u64, sub_u64, bindR, day_id.
  change (MS_PER_DAY =? 0) with false. cbv iota.
  pose proof (mod_MS_bounds t) as Hm.
  pose proof (Z.mod_le t MS_PER_DAY Ht ltac:(reflexivity)) as Hle.
  destruct (Z.leb_spec (t mod MS_PER_DAY) t); [reflexivity | lia].
Qed.

Lemma get_date_timestamp_inv t d :
  get_date_timestamp t = Ok d -> d = day_id t /\ 0 <= d.
Proof.
  unfold get_date_timestamp, mod_u64, sub_u64, bindR, day_id.
  change (MS_PER_DAY =? 0) with false. cbv iota.
  destruct (Z.leb_spec (t mod MS_PER_DAY) t); [|discriminate].
  intros E. inversion E. split; [reflexivity | lia].
Qed.

Lemma day_id_early t : 0 <= t < MS_PER_DAY -> day_id t = 0.
Proof.
  intros Ht. unfold day_id. rewrite Z.mod_small by exact Ht. lia.
Qed.

Lemma day_id_multiple k : day_id (k * MS_PER_DAY) = k * MS_PER_DAY.
Proof. unfold day_id. rewrite Z.mod_mul by discriminate. lia. Qed.

End Facts.

(* ================================================================= *)
(** ** Stepping through a transaction *)

Section Monad.

Context {natives : Natives}.

Lemma bind_Ok {A B} (m : Tx A) (k : A -> Tx B) s r :
  bind m k s = Ok r -> exists a s1, m s = Ok (a, s1) /\ k a s1 = Ok r.
Proof.
  unfold bind. destruct (m s) as [[a s1]|e]; [|discriminate].
  intros H. exists a, s1. split; [reflexivity | exact H].
Qed.

Lemma bind_Err {A B} (m : Tx A) (k : A -> Tx B) s e :
  bind m k s = Err e ->
  m s = Err e \/ exists a s1, m s = Ok (a, s1) /\ k a s1 = Err e.
Proof.
  unfold bind. destruct (m s) as [[a s1]|e0].
  - intros H. right. exists a, s1. split; [reflexivity | exact H].
  - intros H. left. inversion H. reflexivity.
Qed.

Lemma lift_Ok {A} (r : Result A) s a s1 :
  lift r s = Ok (a, s1) -> r = Ok a /\ s1 = s.
Proof.
  unfold lift. destruct r; [|discriminate].
  intros H. inversion H. split; reflexivity.
Qed.

Lemma lift_Err {A} (r : Result A) s e : lift r s = Err e -> r = Err e.
Proof.
  unfold lift. destruct r; [discriminate|].
  intros H. inversion H. reflexivity.
Qed.

Lemma ret_Ok {A} (a : A) s b s1 : ret a s = Ok (b, s1) -> b = a /\ s1 = s.
Proof. unfold ret. intros H. inversion H. split; reflexivity. Qed.

Lemma assert_Ok cond code s u s1 :
  assert cond code s = Ok (u, s1) -> cond = true /\ s1 = s.
Proof.
  unfold assert, ret, abort. destruct cond; [|discriminate].
  intros H. inversion H. split; reflexivity.
Qed.

Lemma assert_Err cond code s e :
  assert cond code s = Err e ->
  cond = false /\ e = MoveAbort HabitContract code.
Proof.
  unfold assert, ret, abort. destruct cond; [discriminate|].
  intros H. inversion H. split; reflexivity.
Qed.

Lemma add_u64_Ok a b c : add_u64 a b = Ok c -> c = a + b /\ a + b <= MAX_U64.
Proof.
  unfold add_u64. destruct (Z.leb_spec (a + b) MAX_U64) as [Hle|]; [|discriminate].
  intros E. inversion E. split; [reflexivity | exact Hle].
Qed.

Lemma sub_u64_Ok a b c : sub_u64 a b = Ok c -> c = a - b /\ b <= a.
Proof.
  unfold sub_u64. destruct (Z.leb_spec b a) as [Hle|]; [|discriminate].
  intros E. inversion E. split; [reflexivity | exact Hle].
Qed.

Lemma add_u64_Err a b e : add_u64 a b = Err e -> e = ArithmeticError.
Proof. unfold add_u64. destruct (a + b <=? MAX_U64); congruence. Qed.

Lemma sub_u64_Err a b e : sub_u64 a b = Err e -> e = ArithmeticError.
Proof. unfold sub_u64. destruct (b <=? a); congruence. Qed.

Lemma get_date_timestamp_Err t e :
  get_date_timestamp t = Err e -> e = ArithmeticError.
Proof.
  unfold get_date_timestamp, mod_u64, bindR.
  destruct (MS_PER_DAY =? 0); [congruence|]. apply sub_u64_Err.
Qed.

Lemma object_new_Ok s uid s1 :
  object_new s = Ok (uid, s1) ->
  sender (ctx s1) = sender (ctx s) /\
  epoch_timestamp_ms (ctx s1) = epoch_timestamp_ms (ctx s) /\
  emitted s1 = emitted s /\ transferred s1 = transferred s /\
  shared s1 = shared s /\ deleted s1 = deleted s /\
  uid = derive_id (tx_hash (ctx s)) (ids_created (ctx s)).
Proof.
  unfold object_new.
  destruct (add_u64 (ids_created (ctx s)) 1); [|discriminate].
  intros H. inversion H. cbn. repeat split; reflexivity.
Qed.

Lemma object_new_Err s e : object_new s = Err e -> e = ArithmeticError.
Proof.
  unfold object_new.
  destruct (add_u64 (ids_created (ctx s)) 1) eqn:Ha; [discriminate|].
  intros H. inversion H. subst. exact (add_u64_Err _ _ _ Ha).
Qed.

Lemma utf8_Ok bytes s str s1 :
  utf8 bytes s = Ok (str, s1) ->
  str = bytes /\ s1 = s /\ internal_check_utf8 bytes = true.
Proof.
  unfold utf8. destruct (internal_check_utf8 bytes); [|discriminate].
  intros H. inversion H. repeat split; reflexivity.
Qed.

Lemma utf8_Err bytes s e :
  utf8 bytes s = Err e -> e = MoveAbort StdString EINVALID_UTF8.
Proof.
  unfold utf8. destruct (internal_check_utf8 bytes); congruence.
Qed.

End Monad.

(** [get_days_since_creation] guards its subtraction with
    [current < created], so it returns on every pair of [u64] timestamps;
    [check_in] has no such guard before [today - MS_PER_DAY]. *)
Lemma get_days_since_creation_total h c :
  0 <= created_at h ->
  0 <= epoch_timestamp_ms c ->
  exists days, get_days_since_creation h c = Ok days /\ 0 <= days.
Proof.
  intros Hc Hn. unfold get_days_since_creation, bindR.
  rewrite !get_date_timestamp_nonneg by assumption.
  destruct (Z.ltb_spec (day_id (epoch_timestamp_ms c)) (day_id (created_at h)))
    as [Hlt|Hge].
  - exists 0. split; [reflexivity | lia].
  - unfold sub_u64. destruct (Z.leb_spec (day_id (created_at h))
                                (day_id (epoch_timestamp_ms c))); [|lia].
    unfold div_u64. change (MS_PER_DAY =? 0) with false. cbv iota.
    eexists. split; [reflexivity|].
    apply Z.div_pos; [lia | reflexivity].
Qed.

Ltac step H a s1 Ha :=
  apply bind_Ok in H; destruct H as (a & s1 & Ha & H).

Ltac step_err H a s1 Ha :=
  apply bind_Err in H; destruct H as [H | (a & s1 & Ha & H)].

Section CheckIn.
Context {natives : Natives}.

Lemma check_in_inv h notes s h' s' :
  check_in h notes s = Ok (h', s') ->
  exists today cs ls evs uid notes_option,
    get_date_timestamp (epoch_timestamp_ms (ctx s)) = Ok today /\
    MS_PER_DAY <= today /\
    last_checkin_date h <> Some today /\
    streak_step h today cs ls evs /\
    total_checkins h + 1 <= MAX_U64 /\
    h' = mkHabit (id h) (owner h) (name h) (description h) (emoji h)
           (created_at h) (goal_type h) (goal_count h)
           (total_checkins h + 1) cs (Z.max ls cs) (Some today)
           (is_public h) /\
    emitted s' = emitted s ++ evs ++
                 [CheckInRecorded (id h) today cs (total_checkins h + 1)] /\
    transferred s' = transferred s ++
                 [(mkCheckIn uid (id h) today notes_option, sender (ctx s))] /\
    shared s' = shared s /\ deleted s' = deleted s.
Proof.
  intros H. unfold check_in in H.
  step H now s1 Hnow. step H today s2 Htoday. step H u s3 Hguard.
  step H yesterday s4 Hy. step H h1 s5 Hbranch. step H tc s6 Htc.
  cbv zeta in H.
  step H notes_option s7 Hnotes. step H uid s8 Huid.
  step H recipient s9 Hrec. step H u1 s10 Htr. step H u2 s11 Hem.
  (* the straight-line part *)
  unfold tx_epoch_timestamp_ms in Hnow. inversion Hnow. subst now s1. clear Hnow.
  apply lift_Ok in Htoday. destruct Htoday as [Hd ->].
  apply lift_Ok in Hy. destruct Hy as [Hy ->].
  apply sub_u64_Ok in Hy. destruct Hy as [-> Hday].
  apply lift_Ok in Htc. destruct Htc as [Htc ->].
  apply add_u64_Ok in Htc. destruct Htc as [-> Htc].
  assert (s7 = s5) as ->.
  { destruct (0 <? Z.of_nat (length notes)).
    - step Hnotes str s0 Hu. apply utf8_Ok in Hu. destruct Hu as (_ & -> & _).
      apply ret_Ok in Hnotes. apply Hnotes.
    - apply ret_Ok in Hnotes. apply Hnotes. }
  clear Hnotes.
  apply object_new_Ok in Huid.
  destruct Huid as (Hs8 & _ & He8 & Ht8 & Hsh8 & Hdl8 & _).
  unfold tx_sender in Hrec. inversion Hrec. subst recipient s9. clear Hrec.
  unfold transfer in Htr. inversion Htr. subst s10. clear Htr.
  unfold emit in Hem. inversion Hem. subst s11. clear Hem.
  apply ret_Ok in H. destruct H as [Hh' Hs']. subst s'.
  cbn [emitted transferred shared deleted ctx].
  rewrite Hs8, He8, Ht8, Hsh8, Hdl8. clear Hs8 He8 Ht8 Hsh8 Hdl8 s8.
  unfold object_id.
  (* the guard and the streak branch *)
  destruct (last_checkin_date h) as [last|] eqn:Hlast.
  - apply assert_Ok in Hguard. destruct Hguard as [Hne ->].
    apply negb_true_iff, Z.eqb_neq in Hne.
    destruct (Z.eqb_spec last (today - MS_PER_DAY)) as [->|Hny].
    + step Hbranch cs s0 Hcs. apply lift_Ok in Hcs. destruct Hcs as [Hcs ->].
      apply add_u64_Ok in Hcs. destruct Hcs as [-> Hcs].
      apply ret_Ok in Hbranch. destruct Hbranch as [-> ->].
      exists today, (current_streak h + 1), (longest_streak h), [], uid,
        notes_option.
      setters. destruct (Z.ltb_spec (longest_streak h) (current_streak h + 1)).
      all: setters; subst h'.
      all: repeat split; try assumption; try lia; try congruence.
      all: try (constructor; assumption).
      all: f_equal; lia.
    + destruct (Z.ltb_spec last (today - MS_PER_DAY)) as [Hlt|Hge].
      * step Hbranch u3 s0 Hev. unfold emit in Hev. inversion Hev. subst s0.
        clear Hev. apply ret_Ok in Hbranch. destruct Hbranch as [-> ->].
        exists today, 1, (Z.max (longest_streak h) (current_streak h)),
          [StreakBroken (id h) (current_streak h)], uid, notes_option.
        destruct (Z.ltb_spec (longest_streak h) (current_streak h)).
        all: setters.
        all: match goal with
             | Hx : context [if ?b then _ else _] |- _ => destruct b eqn:Hb
             end.
        all: setters; arith_facts; subst h'.
        all: rewrite <- ?app_assoc; cbn [app].
        all: repeat split; try assumption; try lia; try congruence.
        all: try (econstructor; eassumption).
        all: f_equal; lia.
      * discriminate Hbranch.
  - apply ret_Ok in Hguard. destruct Hguard as [_ ->].
    apply ret_Ok in Hbranch. destruct Hbranch as [-> ->].
    exists today, 1, (longest_streak h), [], uid, notes_option.
    setters. destruct (Z.ltb_spec (longest_streak h) 1).
    all: setters; subst h'.
    all: repeat split; try assumption; try lia; try congruence.
    all: try (constructor; assumption).
    all: f_equal; lia.
Qed.

(** The guard of [check_in] fires on a habit already checked in on the day of
    the call, before anything else can fail. *)
Lemma check_in_guard h notes s today :
  get_date_timestamp (epoch_timestamp_ms (ctx s)) = Ok today ->
  last_checkin_date h = Some today ->
  check_in h notes s = Err (MoveAbort HabitContract E_ALREADY_CHECKED_IN).
Proof.
  intros Hd Hl. unfold check_in, bind, tx_epoch_timestamp_ms, lift.
  rewrite Hd, Hl. unfold assert.
  rewrite Z.eqb_refl. reflexivity.
Qed.

(** No other abort of [check_in] carries the code of the guard. *)
Lemma check_in_guard_only h notes s :
  check_in h notes s = Err (MoveAbort HabitContract E_ALREADY_CHECKED_IN) ->
  exists today,
    get_date_timestamp (epoch_timestamp_ms (ctx s)) = Ok today /\
    last_checkin_date h = Some today.
Proof.
  intros H. unfold check_in in H.
  step_err H now s1 Hnow; [discriminate H|].
  unfold tx_epoch_timestamp_ms in Hnow. inversion Hnow. subst now s1. clear Hnow.
  step_err H today s2 Htoday;
    [apply lift_Err, get_date_timestamp_Err in H; discriminate H|].
  apply lift_Ok in Htoday. destruct Htoday as [Hd ->].
  exists today. split; [exact Hd|].
  step_err H u s3 Hguard.
  { destruct (last_checkin_date h) as [last|]; [|discriminate H].
    apply assert_Err in H. destruct H as [Heq _].
    apply negb_false_iff, Z.eqb_eq in Heq. congruence. }
  exfalso.
  step_err H yesterday s4 Hy;
    [apply lift_Err, sub_u64_Err in H; discriminate H|].
  step_err H h1 s5 Hbranch.
  { destruct (last_checkin_date h) as [last|]; [|discriminate H].
    destruct (last =? yesterday).
    - step_err H cs s0 Hcs; [|discriminate H].
      apply lift_Err, add_u64_Err in H. discriminate H.
    - destruct (last <? yesterday); [|discriminate H].
      step_err H u3 s0 Hev; discriminate H. }
  step_err H tc s6 Htc;
    [apply lift_Err, add_u64_Err in H; discriminate H|].
  cbv zeta in H.
  step_err H notes_option s7 Hnotes.
  { destruct (0 <? Z.of_nat (length notes)); [|discriminate H].
    step_err H str s0 Hu; [|discriminate H].
    apply utf8_Err in H. discriminate H. }
  step_err H uid s8 Huid; [apply object_new_Err in H; discriminate H|].
  step_err H recipient s9 Hrec; [discriminate H|].
  step_err H u1 s10 Htr; [discriminate H|].
  step_err H u2 s11 Hem; discriminate H.
Qed.

(** A call on epoch day 0 that passes the guard stops at
    [today - MS_PER_DAY]. *)
Lemma check_in_day_zero h notes s :
  0 <= epoch_timestamp_ms (ctx s) < MS_PER_DAY ->
  last_checkin_date h <> Some 0 ->
  check_in h notes s = Err ArithmeticError.
Proof.
  intros Hnow Hl. unfold check_in, bind, tx_epoch_timestamp_ms, lift.
  rewrite get_date_timestamp_nonneg by lia.
  rewrite day_id_early by exact Hnow.
  destruct (last_checkin_date h) as [last|].
  - unfold assert. destruct (Z.eqb_spec last 0) as [->|_]; [congruence|].
    reflexivity.
  - reflexivity.
Qed.

End CheckIn.

(* ================================================================= *)
(** ** Update, delete and create *)

Section OwnerGated.

Context {natives : Natives}.

Lemma update_habit_not_owner h n d e gt gc p s :
  owner h <> sender (ctx s) ->
  update_habit h n d e gt gc p s = Err (MoveAbort HabitContract E_NOT_OWNER).
Proof.
  intros Hne. unfold update_habit, bind, tx_sender, assert.
  destruct (Z.eqb_spec (owner h) (sender (ctx s))); [contradiction|].
  reflexivity.
Qed.

Lemma delete_habit_not_owner h s :
  owner h <> sender (ctx s) ->
  delete_habit h s = Err (MoveAbort HabitContract E_NOT_OWNER).
Proof.
  intros Hne. unfold delete_habit, bind, tx_sender, assert.
  destruct (Z.eqb_spec (owner h) (sender (ctx s))); [contradiction|].
  reflexivity.
Qed.

Lemma update_habit_invalid_goal_type h n d e gt gc p s :
  owner h = sender (ctx s) ->
  GOAL_TYPE_MONTHLY < gt ->
  update_habit h n d e (Some gt) gc p s =
  Err (MoveAbort HabitContract E_INVALID_GOAL_TYPE).
Proof.
  intros Ho Hgt. unfold update_habit, bind, tx_sender, assert.
  rewrite Ho, Z.eqb_refl. unfold ret. cbv zeta.
  destruct (Z.leb_spec gt GOAL_TYPE_MONTHLY); [lia|].
  reflexivity.
Qed.

(** An update that goes through leaves the identity and the counters of the
    habit alone and emits one [HabitUpdated]. *)
Lemma update_habit_inv h n d e gt gc p s h' s' :
  update_habit h n d e gt gc p s = Ok (h', s') ->
  owner h = sender (ctx s) /\
  id h' = id h /\ owner h' = owner h /\ created_at h' = created_at h /\
  total_checkins h' = total_checkins h /\
  current_streak h' = current_streak h /\
  longest_streak h' = longest_streak h /\
  last_checkin_date h' = last_checkin_date h /\
  emitted s' = emitted s ++ [HabitUpdated (id h)] /\
  transferred s' = transferred s.
Proof.
  intros H. unfold update_habit in H.
  step H caller s1 Hc. unfold tx_sender in Hc. inversion Hc. subst caller s1.
  clear Hc.
  step H u s2 Ha. apply assert_Ok in Ha. destruct Ha as [Ho ->].
  apply Z.eqb_eq in Ho.
  cbv zeta in H. step H h1 s3 Hg. step H u2 s4 He.
  apply ret_Ok in H. destruct H as [-> ->].
  unfold emit in He. inversion He. subst s4. clear He.
  destruct gt as [g|].
  - step Hg u3 s0 Hgt. apply assert_Ok in Hgt. destruct Hgt as [_ ->].
    apply ret_Ok in Hg. destruct Hg as [-> ->].
    destruct n, d, e, gc, p; cbn; repeat split; assumption.
  - apply ret_Ok in Hg. destruct Hg as [-> ->].
    destruct n, d, e, gc, p; cbn; repeat split; assumption.
Qed.

Lemma delete_habit_inv h s u s' :
  delete_habit h s = Ok (u, s') ->
  owner h = sender (ctx s) /\
  emitted s' = emitted s ++ [HabitDeleted (id h)] /\
  transferred s' = transferred s /\
  deleted s' = deleted s ++ [id h].
Proof.
  intros H. unfold delete_habit in H.
  step H caller s1 Hc. unfold tx_sender in Hc. inversion Hc. subst caller s1.
  clear Hc.
  step H u1 s2 Ha. apply assert_Ok in Ha. destruct Ha as [Ho ->].
  apply Z.eqb_eq in Ho.
  cbv zeta in H. step H u2 s3 Hd.
  unfold object_delete in Hd. inversion Hd. subst s3. clear Hd.
  unfold emit in H. inversion H. cbn. repeat split. exact Ho.
Qed.

Lemma create_habit_inv n d e gt gc p s hid s' :
  create_habit n d e gt gc p s = Ok (hid, s') ->
  gt <= GOAL_TYPE_MONTHLY /\
  shared s' = shared s ++
    [mkHabit hid (sender (ctx s)) n d e (epoch_timestamp_ms (ctx s))
       gt gc 0 0 0 None p] /\
  emitted s' = emitted s ++ [HabitCreated hid (sender (ctx s)) n] /\
  transferred s' = transferred s.
Proof.
  intros H. unfold create_habit in H.
  step H u s1 Ha. apply assert_Ok in Ha. destruct Ha as [Hgt ->].
  apply Z.leb_le in Hgt.
  step H uid s2 Hn. apply object_new_Ok in Hn.
  destruct Hn as (Hs2 & Ht2 & He2 & Htr2 & Hsh2 & _ & _).
  step H o s3 Ho. unfold tx_sender in Ho. inversion Ho. subst o s3. clear Ho.
  step H ns s4 Hns. apply utf8_Ok in Hns. destruct Hns as (-> & -> & _).
  step H ds s5 Hds. apply utf8_Ok in Hds. destruct Hds as (-> & -> & _).
  step H es s6 Hes. apply utf8_Ok in Hes. destruct Hes as (-> & -> & _).
  step H t s7 Ht. unfold tx_epoch_timestamp_ms in Ht. inversion Ht.
  subst t s7. clear Ht.
  cbv zeta in H.
  step H u1 s8 Hsh. unfold share_object in Hsh. inversion Hsh. subst s8.
  clear Hsh.
  step H o s9 Ho. unfold tx_sender in Ho. inversion Ho. subst o s9. clear Ho.
  step H ns s10 Hns. apply utf8_Ok in Hns. destruct Hns as (-> & -> & _).
  step H u2 s11 Hem. unfold emit in Hem. inversion Hem. subst s11. clear Hem.
  apply ret_Ok in H. destruct H as [-> ->].
  cbn. unfold object_id. cbn. rewrite Hs2, Ht2, He2, Htr2, Hsh2.
  repeat split. exact Hgt.
Qed.

Lemma execute_create_inv n d e gt gc p c l :
  execute_create n d e gt gc p c = Ok l ->
  exists hid,
    l = mkLedger
          (Some (mkHabit hid (sender c) n d e (epoch_timestamp_ms c)
                   gt gc 0 0 0 None p))
          [] [HabitCreated hid (sender c) n].
Proof.
  unfold execute_create. intros H.
  destruct (create_habit n d e gt gc p (start c)) as [[hid s']|] eqn:Hc;
    [|discriminate].
  apply create_habit_inv in Hc. destruct Hc as (_ & Hs & He & Ht).
  inversion H. subst l. rewrite Hs, He, Ht. exists hid. reflexivity.
Qed.

End OwnerGated.

(* ================================================================= *)
(** ** One transaction on the ledger *)

Section Ledger.

Context {natives : Natives}.

Lemma execute_gone l call c :
  record l = None -> execute l call c = (l, NoObject).
Proof. intros Hr. unfold execute. rewrite Hr. reflexivity. Qed.

(** What one transaction does to the record, the receipts and the log. *)
Lemma execute_facts l call c h :
  record l = Some h ->
  let l' := fst (execute l call c) in
  let o := snd (execute l call c) in
  length (receipts l') =
    (length (receipts l) + if checked_in call o then 1 else 0)%nat /\
  (forall r, In r (receipts l') ->
             In r (receipts l) \/ habit_id (fst r) = id h) /\
  (forall h', record l' = Some h' ->
     id h' = id h /\
     longest_streak h <= longest_streak h' /\
     total_checkins h' =
       total_checkins h + (if checked_in call o then 1 else 0) /\
     (checked_in call o = true \/ current_streak h <= longest_streak h ->
      current_streak h' <= longest_streak h')).
Proof.
  intros Hr. unfold execute. rewrite Hr.
  destruct call as [notes | n d e gt gc p |].
  - destruct (check_in h notes (start c)) as [[h1 s1]|err] eqn:Hc; cbn.
    + apply check_in_inv in Hc.
      destruct Hc as (today & cs & ls & evs & uid & no & _ & _ & _ & Hstep &
                      _ & -> & _ & Htr & _ & _).
      rewrite Htr. cbn. split; [rewrite length_app; cbn; lia|].
      split.
      { intros r Hin. apply in_app_iff in Hin.
        destruct Hin as [Hin|[<-|[]]]; [left; exact Hin | right; reflexivity]. }
      intros h' E. inversion E. subst h'. cbn.
      destruct Hstep; repeat split; lia.
    + rewrite Hr. split; [lia|]. split; [intros r Hin; left; exact Hin|].
      intros h' E. inversion E. subst h'. repeat split; try lia;
        try (intros [F|Hle]; [discriminate F | exact Hle]).
  - destruct (update_habit h n d e gt gc p (start c)) as [[h1 s1]|err] eqn:Hu;
      cbn.
    + apply update_habit_inv in Hu.
      destruct Hu as (_ & Hid & _ & _ & Ht & Hcs & Hls & _ & _ & Htr).
      rewrite Htr. cbn. rewrite app_nil_r.
      split; [lia|]. split; [intros r Hin; left; exact Hin|].
      intros h' E. inversion E. subst h'. rewrite Hid, Ht, Hcs, Hls.
      repeat split; try lia;
        try (intros [F|Hle]; [discriminate F | exact Hle]).
    + rewrite Hr. split; [lia|]. split; [intros r Hin; left; exact Hin|].
      intros h' E. inversion E. subst h'. repeat split; try lia;
        try (intros [F|Hle]; [discriminate F | exact Hle]).
  - destruct (delete_habit h (start c)) as [[u s1]|err] eqn:Hd; cbn.
    + apply delete_habit_inv in Hd. destruct Hd as (_ & _ & Htr & _).
      rewrite Htr. cbn. rewrite app_nil_r.
      split; [lia|]. split; [intros r Hin; left; exact Hin|].
      intros h' E. discriminate E.
    + rewrite Hr. split; [lia|]. split; [intros r Hin; left; exact Hin|].
      intros h' E. inversion E. subst h'. repeat split; try lia;
        try (intros [F|Hle]; [discriminate F | exact Hle]).
Qed.

Lemma successful_checkins_gone calls : forall l,
  record l = None ->
  run l calls = l /\ successful_checkins l calls = 0%nat.
Proof.
  induction calls as [|[call c] rest IH]; intros l Hr; [split; reflexivity|].
  cbn [run successful_checkins].
  rewrite (execute_gone l call c Hr). cbn [fst].
  destruct (IH l Hr) as [IHr IHs]. rewrite IHr, IHs.
  destruct call; split; reflexivity.
Qed.

(** A trace of transactions: receipts and [total_checkins] both count the
    check-ins that went through, and [longest_streak] only grows. *)
Lemma run_facts calls : forall l h,
  record l = Some h ->
  length (receipts (run l calls)) =
    (length (receipts l) + successful_checkins l calls)%nat /\
  (forall r, In r (receipts (run l calls)) ->
             In r (receipts l) \/ habit_id (fst r) = id h) /\
  (forall h', record (run l calls) = Some h' ->
     id h' = id h /\
     longest_streak h <= longest_streak h' /\
     total_checkins h' =
       total_checkins h + Z.of_nat (successful_checkins l calls)).
Proof.
  induction calls as [|[call c] rest IH]; intros l h Hr.
  - cbn. split; [lia|]. split; [intros r Hin; left; exact Hin|].
    intros h' E. rewrite Hr in E. inversion E. subst h'. repeat split; lia.
  - cbn [run successful_checkins].
    pose proof (execute_facts l call c h Hr) as Hex. cbv zeta in Hex.
    destruct (execute l call c) as [l1 o] eqn:He. cbn [fst snd] in *.
    destruct Hex as (Hlen & Hin1 & Hrec).
    destruct (record l1) as [h1|] eqn:Hr1.
    + destruct (Hrec h1 eq_refl) as (Hid & Hls & Htc & _).
      destruct (IH l1 h1 Hr1) as (IHlen & IHin & IHrec).
      split; [destruct (checked_in call o); lia|].
      split.
      { intros r Hin. destruct (IHin r Hin) as [Hin'|Hh].
        - exact (Hin1 r Hin').
        - right. rewrite Hh. exact Hid. }
      intros h' E. destruct (IHrec h' E) as (Hid' & Hls' & Htc').
      destruct (checked_in call o); repeat split; try congruence; lia.
    + destruct (successful_checkins_gone rest l1 Hr1) as [Hrun Hs].
      rewrite Hrun, Hs. split; [destruct (checked_in call o); lia|].
      split; [exact Hin1|].
      intros h' E. rewrite Hr1 in E. discriminate E.
Qed.

Lemma run_app calls1 : forall l calls2,
  run l (calls1 ++ calls2) = run (run l calls1) calls2.
Proof.
  induction calls1 as [|[call c] rest IH]; intros l calls2; [reflexivity|].
  cbn [app run]. apply IH.
Qed.

(** The reachable ledgers are the ends of the traces that start with a
    [create_habit]. *)
Lemma reachable_trace l :
  Reachable l <->
  exists n d e gt gc p c0 l0 calls,
    execute_create n d e gt gc p c0 = Ok l0 /\ l = run l0 calls.
Proof.
  split.
  - induction 1 as [n d e gt gc p c l Hc | l call c Hreach IH].
    + exists n, d, e, gt, gc, p, c, l, []. split; [exact Hc | reflexivity].
    + destruct IH as (n & d & e & gt & gc & p & c0 & l0 & calls & Hc & ->).
      exists n, d, e, gt, gc, p, c0, l0, (calls ++ [(call, c)]).
      split; [exact Hc|]. rewrite run_app. reflexivity.
  - intros (n & d & e & gt & gc & p & c0 & l0 & calls & Hc & ->).
    assert (Hl0 : Reachable l0) by (eapply reach_create; exact Hc).
    clear Hc. revert l0 Hl0.
    induction calls as [|[call c] rest IH]; intros l0 Hl0; [exact Hl0|].
    cbn [run]. apply IH. apply reach_step. exact Hl0.
Qed.

End Ledger.

(* ================================================================= *)
(** ** Check-in: epoch day 0, streak break, one check-in per day *)

Section CheckInProperties.

Context {natives : Natives}.

Lemma day_id_zero t : day_id t = 0 -> 0 <= t < MS_PER_DAY.
Proof.
  unfold day_id. intros H. pose proof (mod_MS_bounds t). lia.
Qed.

(** C2: on epoch day 0 ([day_id now = 0], that is [now < 86400000])
    [check_in] never goes through: when the already-checked-in guard does
    not fire, it aborts on the subtraction [today - MS_PER_DAY], also on a
    first-ever check-in, where the algorithm of the design document goes
    through and sets [current_streak] to 1. *)
Theorem check_in_epoch_day_zero h notes s :
  day_id (epoch_timestamp_ms (ctx s)) = 0 ->
  (last_checkin_date h <> Some (day_id (epoch_timestamp_ms (ctx s))) ->
   check_in h notes s = Err ArithmeticError) /\
  (forall r, check_in h notes s <> Ok r) /\
  (last_checkin_date h = None ->
   check_in h notes s = Err ArithmeticError /\
   exists h' evs,
     Design.check_in h (epoch_timestamp_ms (ctx s)) = inr (h', evs) /\
     current_streak h' = 1).
Proof.
  intros Hday. pose proof (day_id_zero _ Hday) as Hnow.
  assert (Hpass : last_checkin_date h <> Some 0 ->
                  check_in h notes s = Err ArithmeticError)
    by (apply check_in_day_zero; exact Hnow).
  rewrite Hday. split; [exact Hpass|]. split.
  - intros r Hr. destruct (last_checkin_date h) as [last|] eqn:Hl.
    + destruct (Z.eq_dec last 0) as [->|Hne].
      * rewrite (check_in_guard h notes s 0) in Hr; [discriminate Hr| |exact Hl].
        rewrite get_date_timestamp_nonneg by lia. rewrite Hday. reflexivity.
      * rewrite Hpass in Hr by congruence. discriminate Hr.
    + rewrite Hpass in Hr by congruence. discriminate Hr.
  - intros Hl. split; [apply Hpass; congruence|].
    unfold Design.check_in. rewrite Hl. cbv zeta iota.
    match goal with
    | |- context [if ?b then _ else _] => destruct b
    end;
      do 2 eexists; (split; [reflexivity|]); reflexivity.
Qed.

(** C4: on a habit with an established streak [n >= 1], a check-in that goes
    through on a day id beyond [last_checkin_date + MS_PER_DAY] sets
    [current_streak] to 1 and [longest_streak] to [max longest_streak n],
    and emits exactly one [StreakBroken], whose [previous_streak] is [n]. *)
Theorem streak_break h notes s h' s' n last :
  current_streak h = n ->
  1 <= n ->
  last_checkin_date h = Some last ->
  last + MS_PER_DAY < day_id (epoch_timestamp_ms (ctx s)) ->
  check_in h notes s = Ok (h', s') ->
  current_streak h' = 1 /\
  longest_streak h' = Z.max (longest_streak h) n /\
  exists evs,
    emitted s' = emitted s ++ evs /\
    filter is_streak_broken evs = [StreakBroken (id h) n].
Proof.
  intros Hn Hpos Hlast Hgap Hc. apply check_in_inv in Hc.
  destruct Hc as (today & cs & ls & evs & uid & no & Hd & _ & _ & Hstep &
                  _ & -> & Hev & _).
  apply get_date_timestamp_inv in Hd. destruct Hd as [-> _].
  destruct Hstep as [Hnone | Hcons _ | last' Hl' Hlt].
  - congruence.
  - rewrite Hlast in Hcons. inversion Hcons. lia.
  - cbn. subst n. repeat split; [lia|].
    eexists. split; [exact Hev|]. reflexivity.
Qed.

(** Once a check-in has gone through, another one on the same day id stops
    at the guard, whatever its notes and sender, and the ledger stays as the
    first call left it. *)
Lemma second_check_in_rejected l notes1 notes2 c1 c2 :
  day_id (epoch_timestamp_ms c2) = day_id (epoch_timestamp_ms c1) ->
  snd (execute l (CheckInCall notes1) c1) = Success ->
  execute (fst (execute l (CheckInCall notes1) c1)) (CheckInCall notes2) c2 =
    (fst (execute l (CheckInCall notes1) c1),
     Failed (MoveAbort HabitContract E_ALREADY_CHECKED_IN)).
Proof.
  intros Hsame Hok. unfold execute in Hok |- *.
  destruct (record l) as [h|]; [|discriminate Hok].
  destruct (check_in h notes1 (start c1)) as [[h1 s1]|err] eqn:Hc;
    [|discriminate Hok].
  cbn [fst commit record].
  apply check_in_inv in Hc.
  destruct Hc as (today & cs & ls & evs & uid & no & Hd & Hday & _ & _ &
                  _ & Hh1 & _).
  apply get_date_timestamp_inv in Hd. destruct Hd as [Htoday _].
  cbn [start ctx] in Htoday.
  rewrite (check_in_guard h1 notes2 (start c2) today); [reflexivity| |].
  - cbn [start ctx]. pose proof (mod_MS_bounds (epoch_timestamp_ms c2)).
    rewrite get_date_timestamp_nonneg; [congruence|].
    unfold day_id in Hsame, Htoday. lia.
  - rewrite Hh1. reflexivity.
Qed.

(** [check_in] stops at the guard exactly when [can_check_in_today] answers
    [false]. *)
Lemma already_checked_in_iff h notes s :
  check_in h notes s = Err (MoveAbort HabitContract E_ALREADY_CHECKED_IN)
  <-> can_check_in_today h (ctx s) = Ok false.
Proof.
  unfold can_check_in_today, bindR. split.
  - intros H. apply check_in_guard_only in H.
    destruct H as (today & -> & ->). rewrite Z.eqb_refl. reflexivity.
  - destruct (get_date_timestamp (epoch_timestamp_ms (ctx s)))
      as [today|] eqn:Hd; [|discriminate].
    destruct (last_checkin_date h) as [last|] eqn:Hl; [|discriminate].
    intros H. inversion H as [Hb].
    apply negb_false_iff, Z.eqb_eq in Hb. subst last.
    exact (check_in_guard h notes s today Hd Hl).
Qed.

End CheckInProperties.

(* ================================================================= *)
(** ** Invariants of the habit record *)

Section Invariants.

Context {natives : Natives}.

(** C3: [current_streak <= longest_streak] in every reachable state of the
    habit: [create_habit] sets both to zero, and every completed [check_in],
    [update_habit] and [delete_habit] keeps it. *)
Theorem streak_bounded_by_longest l :
  Reachable l ->
  forall h, record l = Some h -> current_streak h <= longest_streak h.
Proof.
  induction 1 as [n d e gt gc p c l Hc | l call c Hreach IH].
  - apply execute_create_inv in Hc. destruct Hc as [hid ->].
    intros h E. inversion E. cbn. lia.
  - intros h' Hr'. destruct (record l) as [h|] eqn:Hr.
    + destruct (execute_facts l call c h Hr) as (_ & _ & Hrec).
      destruct (Hrec h' Hr') as (_ & _ & _ & Hinv).
      apply Hinv. right. apply IH. reflexivity.
    + rewrite (execute_gone l call c Hr) in Hr'. cbn in Hr'.
      rewrite Hr in Hr'. discriminate Hr'.
Qed.

(** C6: after [create_habit], along any trace of transactions, no operation,
    successful or not, lowers [longest_streak] or [total_checkins]; a
    check-in that goes through adds exactly 1 to [total_checkins] and no
    other operation changes it; so [total_checkins] is the number of
    check-ins that went through, which is the number of receipts handed
    out, all of them for this habit. *)
Theorem counters_monotone n d e gt gc p c0 l0 calls :
  execute_create n d e gt gc p c0 = Ok l0 ->
  (forall call c h h',
     record (run l0 calls) = Some h ->
     record (fst (execute (run l0 calls) call c)) = Some h' ->
     longest_streak h <= longest_streak h' /\
     total_checkins h <= total_checkins h' /\
     total_checkins h' =
       total_checkins h +
       (if checked_in call (snd (execute (run l0 calls) call c))
        then 1 else 0)) /\
  length (receipts (run l0 calls)) = successful_checkins l0 calls /\
  (forall h0 r, record l0 = Some h0 -> In r (receipts (run l0 calls)) ->
                habit_id (fst r) = id h0) /\
  (forall h, record (run l0 calls) = Some h ->
             total_checkins h = Z.of_nat (successful_checkins l0 calls)).
Proof.
  intros Hc. apply execute_create_inv in Hc. destruct Hc as [hid ->].
  set (h0 := mkHabit hid (sender c0) n d e (epoch_timestamp_ms c0)
               gt gc 0 0 0 None p).
  set (l0 := mkLedger (Some h0) [] [HabitCreated hid (sender c0) n]).
  destruct (run_facts calls l0 h0 eq_refl) as (Hlen & Hin & Hrec).
  split; [|split; [|split]].
  - intros call c h h' Hr Hr'.
    destruct (execute_facts (run l0 calls) call c h Hr) as (_ & _ & Hstep).
    destruct (Hstep h' Hr') as (_ & Hls & Htc & _).
    destruct (checked_in call (snd (execute (run l0 calls) call c)));
      repeat split; lia.
  - exact Hlen.
  - intros h r E Hr. inversion E. subst h.
    destruct (Hin r Hr) as [[]|Hid]. exact Hid.
  - intros h Hr. destruct (Hrec h Hr) as (_ & _ & Htc). exact Htc.
Qed.

(** C7: [update_habit] and [delete_habit] called by anyone but the owner
    abort with [E_NOT_OWNER]; the habit record stays as it was, it is not
    removed, and nothing is emitted. *)
Theorem non_owner_rejected l h c :
  record l = Some h ->
  sender c <> owner h ->
  (forall n d e gt gc p,
     execute l (UpdateCall n d e gt gc p) c =
     (l, Failed (MoveAbort HabitContract E_NOT_OWNER))) /\
  execute l DeleteCall c = (l, Failed (MoveAbort HabitContract E_NOT_OWNER)).
Proof.
  intros Hr Hne. unfold execute. rewrite Hr. split.
  - intros n d e gt gc p.
    rewrite update_habit_not_owner by (cbn; congruence). reflexivity.
  - rewrite delete_habit_not_owner by (cbn; congruence). reflexivity.
Qed.

(** C8: [update_habit] called by the owner with a [goal_type] above 2 aborts
    with [E_INVALID_GOAL_TYPE] and has no partial effect: the record keeps
    every field, also the name, description and emoji supplied in the same
    call, and no [HabitUpdated] is emitted. *)
Theorem invalid_goal_type_no_partial_effect l h n d e gt gc p c :
  record l = Some h ->
  sender c = owner h ->
  2 < gt ->
  execute l (UpdateCall n d e (Some gt) gc p) c =
    (l, Failed (MoveAbort HabitContract E_INVALID_GOAL_TYPE)) /\
  record (fst (execute l (UpdateCall n d e (Some gt) gc p) c)) = Some h /\
  filter is_habit_updated
    (log (fst (execute l (UpdateCall n d e (Some gt) gc p) c))) =
  filter is_habit_updated (log l).
Proof.
  intros Hr Ho Hgt.
  assert (E : execute l (UpdateCall n d e (Some gt) gc p) c =
              (l, Failed (MoveAbort HabitContract E_INVALID_GOAL_TYPE))).
  { unfold execute. rewrite Hr.
    rewrite update_habit_invalid_goal_type; [reflexivity| |exact Hgt].
    cbn. congruence. }
  rewrite E. cbn [fst]. repeat split. exact Hr.
Qed.

End Invariants.

(* ================================================================= *)
(** ** The views *)

(** C9, as the code has it: on [u64] inputs [get_completion_rate] returns 0
    when [total_checkins], [period_days] or [goal_count] is 0; otherwise,
    when neither [period_days * goal_count] nor [total_checkins * 100]
    leaves the [u64] range, it returns
    [min 100 (total_checkins * 100 / (period_days * goal_count))]; when one
    of the two products leaves the range it aborts; whatever it returns lies
    between 0 and 100. *)
Theorem completion_rate_spec h period_days :
  is_u64 (total_checkins h) ->
  is_u64 (goal_count h) ->
  is_u64 period_days ->
  (total_checkins h = 0 \/ period_days = 0 \/ goal_count h = 0 ->
   get_completion_rate h period_days = Ok 0) /\
  (total_checkins h <> 0 -> period_days <> 0 -> goal_count h <> 0 ->
   period_days * goal_count h <= MAX_U64 ->
   total_checkins h * 100 <= MAX_U64 ->
   get_completion_rate h period_days =
   Ok (Z.min 100 (total_checkins h * 100 / (period_days * goal_count h)))) /\
  (total_checkins h <> 0 -> period_days <> 0 -> goal_count h <> 0 ->
   MAX_U64 < period_days * goal_count h \/ MAX_U64 < total_checkins h * 100 ->
   get_completion_rate h period_days = Err ArithmeticError) /\
  (forall r, get_completion_rate h period_days = Ok r -> 0 <= r <= 100).
Proof.
  unfold is_u64. intros Htc Hgc Hpd.
  unfold get_completion_rate, mul_u64, div_u64, bindR.
  destruct (Z.eqb_spec (total_checkins h) 0) as [Et|Et]; cbn [orb];
    [solve_rate|].
  destruct (Z.eqb_spec period_days 0) as [Ep|Ep]; cbn [orb]; [solve_rate|].
  destruct (Z.leb_spec (period_days * goal_count h) MAX_U64) as [Hm|Hm].
  - destruct (Z.eqb_spec (period_days * goal_count h) 0) as [Ee|Ee].
    + assert (goal_count h = 0) by nia. solve_rate.
    + assert (Hpos : 0 < period_days * goal_count h) by nia.
      destruct (Z.leb_spec (total_checkins h * 100) MAX_U64) as [Hs|Hs];
        [|solve_rate].
      pose proof (Z.div_pos (total_checkins h * 100)
                    (period_days * goal_count h) ltac:(lia) Hpos) as Hq.
      destruct (Z.ltb_spec 100
                  (total_checkins h * 100 / (period_days * goal_count h)));
        solve_rate.
  - assert (goal_count h <> 0) by nia. solve_rate.
Qed.

(** C10, as the code has it: [get_habit_info] returns the eleven fields
    [owner], [name], [description], [emoji], [created_at], [goal_type],
    [goal_count], [total_checkins], [current_streak], [longest_streak] and
    [is_public], each as stored: every field of the habit but [id] and
    [last_checkin_date]. *)
Theorem habit_info_fields h :
  get_habit_info h =
    (owner h, name h, description h, emoji h, created_at h, goal_type h,
     goal_count h, total_checkins h, current_streak h, longest_streak h,
     is_public h) /\
  forall h2,
    get_habit_info h = get_habit_info h2 <->
    h2 = mkHabit (id h2) (owner h) (name h) (description h) (emoji h)
           (created_at h) (goal_type h) (goal_count h) (total_checkins h)
           (current_streak h) (longest_streak h) (last_checkin_date h2)
           (is_public h).
Proof.
  split; [reflexivity|]. intros h2. unfold get_habit_info. split.
  - intros E. inversion E. destruct h2. cbn in *. congruence.
  - intros ->. reflexivity.
Qed.

(* ================================================================= *)
(** ** The scenario of the design document, and worked examples *)

(** C1: the scenario as the code runs it.  [create_habit] with
    [goal_type = 0] and [goal_count = 1] gives [fresh_ledger]; the check-in
    at timestamp 0 aborts on [today - MS_PER_DAY] and leaves the ledger as
    it was, so after the calls at 0, 86400000 and 172800000 the counters are
    2, 2, 2 and not 3, 3, 3, and after the call at 432000000 they are
    1, 2, 3 with one [StreakBroken] whose [previous_streak] is 2. *)
Theorem scenario_day_zero_check_in_aborts :
  @execute_create example_natives run_name [] run_emoji 0 1 true
    (at_time alice 1 1000) = Ok fresh_ledger /\
  @execute example_natives fresh_ledger (CheckInCall []) (at_time alice 2 0) =
    (fresh_ledger, Failed ArithmeticError) /\
  counters (@run example_natives fresh_ledger
              (checkins_at [0; 86400000; 172800000])) = Some (2, 2, 2) /\
  counters (@run example_natives fresh_ledger
              (checkins_at [0; 86400000; 172800000; 432000000])) =
    Some (1, 2, 3) /\
  filter is_streak_broken
    (log (@run example_natives fresh_ledger
            (checkins_at [0; 86400000; 172800000; 432000000]))) =
    [StreakBroken 4294967296 2].
Proof. repeat split; vm_compute; reflexivity. Qed.

(** The same scenario one day later goes as the design document says. *)
Example scenario_from_day_one :
  counters (@run example_natives fresh_ledger
              (checkins_at [86400000; 172800000; 259200000])) =
    Some (3, 3, 3) /\
  counters (@run example_natives fresh_ledger
              (checkins_at [86400000; 172800000; 259200000; 518400000])) =
    Some (1, 3, 4) /\
  filter is_streak_broken
    (log (@run example_natives fresh_ledger
            (checkins_at [86400000; 172800000; 259200000; 518400000]))) =
    [StreakBroken 4294967296 3].
Proof. repeat split; vm_compute; reflexivity. Qed.

(** Notes that are not UTF-8 stop a check-in in [string::utf8]; the abort
    code is 1 as well, but of [std::string]. *)
Example check_in_rejects_bad_notes :
  @execute example_natives fresh_ledger (CheckInCall bad_note)
    (at_time alice 3 86400000) =
  (fresh_ledger, Failed (MoveAbort StdString EINVALID_UTF8)).
Proof. vm_compute. reflexivity. Qed.

(** A first check-in at timestamp 0 on the habit of the scenario. *)
Lemma check_in_epoch_day_zero_witness :
  day_id 0 = 0 /\
  @check_in example_natives fresh_habit [] (start (at_time alice 2 0)) =
    Err ArithmeticError.
Proof.
  split; [reflexivity|].
  apply (@check_in_epoch_day_zero example_natives fresh_habit []
           (start (at_time alice 2 0)) eq_refl).
  reflexivity.
Defined.

(** The scenario habit after its check-in on day 1. *)
Lemma streak_bounded_by_longest_witness :
  counters (@run example_natives fresh_ledger (checkins_at [86400000])) =
    Some (1, 1, 1) /\
  forall h,
    record (@run example_natives fresh_ledger (checkins_at [86400000])) =
      Some h ->
    current_streak h <= longest_streak h.
Proof.
  split; [vm_compute; reflexivity|].
  apply (@streak_bounded_by_longest example_natives).
  apply (@reach_step example_natives fresh_ledger (CheckInCall [])
           (at_time alice 3 86400000)).
  apply (@reach_create example_natives run_name [] run_emoji 0 1 true
           (at_time alice 1 1000)).
  vm_compute. reflexivity.
Defined.

(** A streak of 3 ending on day 3, and a check-in on day 6. *)
Lemma streak_break_witness :
  exists h' s',
    @check_in example_natives streak_habit []
      (start (at_time alice 7 518400000)) = Ok (h', s') /\
    current_streak h' = 1 /\
    longest_streak h' = 3 /\
    filter is_streak_broken (emitted s') = [StreakBroken 4294967296 3].
Proof.
  destruct (@check_in example_natives streak_habit []
              (start (at_time alice 7 518400000))) as [[h' s']|err] eqn:Hc;
    [|vm_compute in Hc; discriminate Hc].
  exists h', s'. split; [reflexivity|].
  destruct (@streak_break example_natives streak_habit []
              (start (at_time alice 7 518400000)) h' s' 3 259200000
              eq_refl ltac:(lia) eq_refl ltac:(vm_compute; reflexivity) Hc)
    as (Hcs & Hls & evs & Hev & Hbr).
  rewrite Hev. repeat split; assumption.
Defined.

(** Three calls of which two go through: two receipts. *)
Lemma counters_monotone_witness :
  length (receipts (@run example_natives fresh_ledger
                      (checkins_at [0; 86400000; 172800000]))) =
    @successful_checkins example_natives fresh_ledger
      (checkins_at [0; 86400000; 172800000]) /\
  @successful_checkins example_natives fresh_ledger
    (checkins_at [0; 86400000; 172800000]) = 2%nat.
Proof.
  split; [|vm_compute; reflexivity].
  apply (@counters_monotone example_natives run_name [] run_emoji 0 1 true
           (at_time alice 1 1000) fresh_ledger
           (checkins_at [0; 86400000; 172800000])).
  vm_compute. reflexivity.
Defined.

(** [bob] cannot delete the habit of [alice]. *)
Lemma non_owner_rejected_witness :
  @execute example_natives fresh_ledger DeleteCall (at_time bob 2 5000) =
  (fresh_ledger, Failed (MoveAbort HabitContract E_NOT_OWNER)).
Proof.
  apply (@non_owner_rejected example_natives fresh_ledger fresh_habit
           (at_time bob 2 5000) eq_refl).
  vm_compute. discriminate.
Defined.

(** [alice] asks for the name "Walk", goal type 3 and goal count 4. *)
Lemma invalid_goal_type_no_partial_effect_witness :
  @execute example_natives fresh_ledger
    (UpdateCall (Some walk_name) None None (Some 3) (Some 4) None)
    (at_time alice 2 5000) =
  (fresh_ledger, Failed (MoveAbort HabitContract E_INVALID_GOAL_TYPE)).
Proof.
  apply (@invalid_goal_type_no_partial_effect example_natives fresh_ledger
           fresh_habit (Some walk_name) None None 3 (Some 4) None
           (at_time alice 2 5000) eq_refl eq_refl).
  reflexivity.
Defined.

(** C9: the claim fails where a product leaves the [u64] range.  One
    check-in, a goal of 2 and a period of [2^63] days: the claim says 0,
    [period_days * goal_count] is [2^64] and the call aborts. *)
Lemma completion_rate_overflow :
  is_u64 9223372036854775808 /\
  get_completion_rate busy_habit 9223372036854775808 = Err ArithmeticError.
Proof. split; [unfold is_u64, MAX_U64; lia | vm_compute; reflexivity]. Qed.

(** Three check-ins, one a day, over a week: 300 / 7 = 42. *)
Lemma completion_rate_spec_witness :
  get_completion_rate streak_habit 7 = Ok 42.
Proof.
  apply (completion_rate_spec streak_habit 7); unfold is_u64, MAX_U64; cbn; lia.
Defined.

(** C10: the claim fails on [id]: two habits that differ in their id alone
    have the same info. *)
Lemma habit_info_omits_id :
  get_habit_info fresh_habit = get_habit_info twin_habit /\
  id fresh_habit <> id twin_habit.
Proof. split; [reflexivity | discriminate]. Qed.

(* ================================================================= *)
(** ** Day bucketing *)

Lemma day_id_quotient t : day_id t = MS_PER_DAY * (t / MS_PER_DAY).
Proof.
  unfold day_id.
  pose proof (Z.div_mod t MS_PER_DAY ltac:(discriminate)) as H.
  unfold MS_PER_DAY in *. lia.
Qed.

(** X1: on a [u64] timestamp [get_date_timestamp] never aborts; the day it
    returns is a multiple of [MS_PER_DAY], at most the timestamp and less
    than a day before it, and it is its own day. *)
Theorem get_date_timestamp_rounds_down t :
  0 <= t ->
  exists d,
    get_date_timestamp t = Ok d /\
    d mod MS_PER_DAY = 0 /\
    d <= t < d + MS_PER_DAY /\
    get_date_timestamp d = Ok d.
Proof.
  intros Ht. exists (day_id t).
  pose proof (mod_MS_bounds t) as Hm.
  pose proof (Z.mod_le t MS_PER_DAY Ht ltac:(reflexivity)) as Hle.
  assert (Hmul : day_id t = MS_PER_DAY * (t / MS_PER_DAY)).
  { apply day_id_quotient. }
  assert (Hz : day_id t mod MS_PER_DAY = 0).
  { rewrite Hmul, Z.mul_comm. apply Z.mod_mul. discriminate. }
  split; [apply get_date_timestamp_nonneg; exact Ht|].
  split; [exact Hz|].
  split; [unfold day_id; lia|].
  rewrite get_date_timestamp_nonneg by (unfold day_id; lia).
  unfold day_id at 1. rewrite Hz. f_equal. lia.
Qed.

(** X2: [get_date_timestamp] is monotone, and the days of two timestamps
    are either equal or at least [MS_PER_DAY] apart, so a day that is not
    the last check-in day is a whole day away from it. *)
Theorem get_date_timestamp_monotone t1 t2 d1 d2 :
  get_date_timestamp t1 = Ok d1 ->
  get_date_timestamp t2 = Ok d2 ->
  t1 <= t2 ->
  d1 <= d2 /\ (d1 = d2 \/ d1 + MS_PER_DAY <= d2).
Proof.
  intros H1 H2 Hle.
  apply get_date_timestamp_inv in H1. destruct H1 as [-> _].
  apply get_date_timestamp_inv in H2. destruct H2 as [-> _].
  rewrite !day_id_quotient.
  pose proof (Z.div_le_mono t1 t2 MS_PER_DAY ltac:(reflexivity) Hle) as Hq.
  unfold MS_PER_DAY in *. lia.
Qed.

(** X3: on [u64] timestamps [get_days_since_creation] never aborts: it is
    the number of day boundaries between the creation and the clock, and 0
    when the clock is on a day before the creation. *)
Theorem get_days_since_creation_value h c :
  0 <= created_at h ->
  0 <= epoch_timestamp_ms c ->
  get_days_since_creation h c =
    Ok (Z.max 0 (epoch_timestamp_ms c / MS_PER_DAY
                 - created_at h / MS_PER_DAY)).
Proof.
  intros Hc Hn. unfold get_days_since_creation, bindR.
  rewrite !get_date_timestamp_nonneg by assumption.
  rewrite !day_id_quotient, !(Z.mul_comm MS_PER_DAY).
  set (qn := epoch_timestamp_ms c / MS_PER_DAY).
  set (qc := created_at h / MS_PER_DAY).
  destruct (Z.ltb_spec (qn * MS_PER_DAY) (qc * MS_PER_DAY)) as [Hlt|Hge].
  - f_equal. unfold MS_PER_DAY in Hlt. lia.
  - unfold sub_u64. destruct (Z.leb_spec (qc * MS_PER_DAY) (qn * MS_PER_DAY));
      [|lia].
    unfold div_u64. change (MS_PER_DAY =? 0) with false. cbv iota.
    f_equal. rewrite <- Z.mul_sub_distr_r, Z.div_mul by discriminate.
    unfold MS_PER_DAY in Hge. lia.
Qed.

(* ================================================================= *)
(** ** Creating a habit *)

Section Create.

Context {natives : Natives}.

Lemma object_new_run s :
  ids_created (ctx s) + 1 <= MAX_U64 ->
  object_new s =
    Ok (derive_id (tx_hash (ctx s)) (ids_created (ctx s)),
        mkStore (bump (ctx s)) (emitted s) (transferred s) (shared s)
          (deleted s)).
Proof.
  intros H. unfold object_new, add_u64.
  destruct (Z.leb_spec (ids_created (ctx s) + 1) MAX_U64); [reflexivity | lia].
Qed.

(** X4: [create_habit] goes through exactly when [goal_type] is at most 2,
    the id counter of the transaction has room, and name, description and
    emoji are valid UTF-8.  Whenever it goes through, it shares exactly one
    habit, owned by the sender, created at the clock of the transaction,
    with all counters zero and no check-in date, returns its id and emits
    one [HabitCreated] with that id. *)
Theorem create_habit_outcome n d e gt gc p s :
  ((exists r, create_habit n d e gt gc p s = Ok r) <->
   gt <= GOAL_TYPE_MONTHLY /\
   ids_created (ctx s) + 1 <= MAX_U64 /\
   internal_check_utf8 n = true /\
   internal_check_utf8 d = true /\
   internal_check_utf8 e = true) /\
  (forall r,
     create_habit n d e gt gc p s = Ok r ->
     r = (derive_id (tx_hash (ctx s)) (ids_created (ctx s)),
          mkStore (bump (ctx s))
            (emitted s ++
             [HabitCreated (derive_id (tx_hash (ctx s)) (ids_created (ctx s)))
                (sender (ctx s)) n])
            (transferred s)
            (shared s ++
             [mkHabit (derive_id (tx_hash (ctx s)) (ids_created (ctx s)))
                (sender (ctx s)) n d e (epoch_timestamp_ms (ctx s))
                gt gc 0 0 0 None p])
            (deleted s))).
Proof.
  unfold create_habit, bind, assert, ret, abort.
  destruct (Z.leb_spec gt GOAL_TYPE_MONTHLY) as [Hgt|Hgt];
    [|split; [split; [intros [r F]; discriminate F | lia]
             | intros r F; discriminate F]].
  unfold object_new, add_u64.
  destruct (Z.leb_spec (ids_created (ctx s) + 1) MAX_U64) as [Hid|Hid];
    [|split; [split; [intros [r F]; discriminate F | lia]
             | intros r F; discriminate F]].
  unfold tx_sender, utf8, tx_epoch_timestamp_ms, share_object, emit, object_id.
  cbn [ctx emitted transferred shared deleted sender tx_hash
       epoch_timestamp_ms ids_created id].
  destruct (internal_check_utf8 n);
    [|split; [split; [intros [r F]; discriminate F
                     | intros (_ & _ & F & _); discriminate F]
             | intros r F; discriminate F]].
  destruct (internal_check_utf8 d);
    [|split; [split; [intros [r F]; discriminate F
                     | intros (_ & _ & _ & F & _); discriminate F]
             | intros r F; discriminate F]].
  destruct (internal_check_utf8 e);
    [|split; [split; [intros [r F]; discriminate F
                     | intros (_ & _ & _ & _ & F); discriminate F]
             | intros r F; discriminate F]].
  split.
  - split; [intros _; repeat split; assumption | intros _].
    eexists. reflexivity.
  - intros r E. inversion E. reflexivity.
Qed.

(** X5: [create_habit] checks [goal_type] first: above 2 it aborts with
    [E_INVALID_GOAL_TYPE] whatever the texts are; with a valid [goal_type]
    and room for the id, a name, description or emoji that is not UTF-8
    aborts in [string::utf8], with the code of [std::string]. *)
Theorem create_habit_rejects n d e gt gc p s :
  GOAL_TYPE_MONTHLY < gt \/
  (ids_created (ctx s) + 1 <= MAX_U64 /\
   internal_check_utf8 n && internal_check_utf8 d && internal_check_utf8 e
   = false) ->
  create_habit n d e gt gc p s =
    Err (if GOAL_TYPE_MONTHLY <? gt
         then MoveAbort HabitContract E_INVALID_GOAL_TYPE
         else MoveAbort StdString EINVALID_UTF8).
Proof.
  intros H. unfold create_habit, bind, assert, ret, abort.
  destruct (Z.leb_spec gt GOAL_TYPE_MONTHLY) as [Hgt|Hgt];
    destruct (Z.ltb_spec GOAL_TYPE_MONTHLY gt) as [Hlt|Hge]; try lia;
    [|reflexivity].
  destruct H as [H|[Hid Hbad]]; [lia|].
  rewrite (object_new_run s Hid).
  unfold tx_sender, utf8.
  cbn [ctx emitted transferred shared deleted sender tx_hash
       epoch_timestamp_ms ids_created id].
  destruct (internal_check_utf8 n); [|reflexivity].
  destruct (internal_check_utf8 d); [|reflexivity].
  destruct (internal_check_utf8 e); [discriminate Hbad | reflexivity].
Qed.

Lemma create_habit_goal_type_code n d e gt gc p s :
  create_habit n d e gt gc p s =
    Err (MoveAbort HabitContract E_INVALID_GOAL_TYPE) ->
  GOAL_TYPE_MONTHLY < gt.
Proof.
  unfold create_habit, bind, assert, ret, abort.
  destruct (Z.leb_spec gt GOAL_TYPE_MONTHLY) as [Hgt|Hgt];
    [|intros _; exact Hgt].
  unfold object_new, add_u64.
  destruct (ids_created (ctx s) + 1 <=? MAX_U64); [|discriminate].
  unfold tx_sender, utf8, tx_epoch_timestamp_ms, share_object, emit.
  cbn [ctx emitted transferred shared deleted].
  destruct (internal_check_utf8 n); [|discriminate].
  destruct (internal_check_utf8 d); [|discriminate].
  destruct (internal_check_utf8 e); discriminate.
Qed.

End Create.

Section CheckInRuns.

Context {natives : Natives}.

Lemma leb_true a b : a <= b -> (a <=? b) = true.
Proof. apply Z.leb_le. Qed.

Ltac tx_simpl :=
  cbn [ctx emitted transferred shared deleted sender tx_hash
       epoch_timestamp_ms ids_created id owner name description emoji
       created_at goal_type goal_count total_checkins current_streak
       longest_streak last_checkin_date is_public
       set_current_streak set_longest_streak set_total_checkins
       set_last_checkin_date bump].

Ltac finish_prefix s1 :=
  exists s1; tx_simpl; rewrite ?app_nil_r;
  repeat (split; [reflexivity|]);
  unfold issue_receipt, set_longest_streak, set_last_checkin_date,
    set_total_checkins, set_current_streak;
  tx_simpl;
  repeat match goal with
  | |- context [Z.max ?a ?b] =>
      first [rewrite (Z.max_l a b) by lia | rewrite (Z.max_r a b) by lia]
  end;
  reflexivity.

Lemma notes_option_run notes s :
  notes = [] \/ internal_check_utf8 notes = true ->
  (if 0 <? Z.of_nat (length notes)
   then bind (utf8 notes) (fun str => ret (Some str))
   else ret None) s = Ok (receipt_notes notes, s).
Proof.
  intros Hnotes. destruct notes as [|b r]; [reflexivity|].
  destruct Hnotes as [F|Hv]; [discriminate F|].
  change (0 <? Z.of_nat (length (b :: r))) with
    (0 <? Z.pos (Pos.of_succ_nat (length r))).
  cbn [Z.ltb Z.compare]. unfold bind, utf8. rewrite Hv. reflexivity.
Qed.

(** From the receipt on: the receipt goes to the sender, the event comes
    last. *)
Lemma issue_receipt_run h1 today notes s :
  notes = [] \/ internal_check_utf8 notes = true ->
  ids_created (ctx s) + 1 <= MAX_U64 ->
  issue_receipt h1 today notes s =
  Ok (h1,
      mkStore (bump (ctx s))
        (emitted s ++
         [CheckInRecorded (id h1) today (current_streak h1)
            (total_checkins h1)])
        (transferred s ++
         [(mkCheckIn (derive_id (tx_hash (ctx s)) (ids_created (ctx s)))
             (id h1) today (receipt_notes notes), sender (ctx s))])
        (shared s) (deleted s)).
Proof.
  intros Hnotes Hid. unfold issue_receipt. unfold bind at 1.
  rewrite (notes_option_run notes s Hnotes).
  unfold bind at 1. rewrite (object_new_run s Hid). reflexivity.
Qed.

Lemma issue_receipt_bad_notes h1 today notes s :
  notes <> [] ->
  internal_check_utf8 notes = false ->
  issue_receipt h1 today notes s = Err (MoveAbort StdString EINVALID_UTF8).
Proof.
  intros Hne Hbad. unfold issue_receipt. unfold bind at 1.
  destruct notes as [|b r]; [contradiction|].
  change (0 <? Z.of_nat (length (b :: r))) with
    (0 <? Z.pos (Pos.of_succ_nat (length r))).
  cbn [Z.ltb Z.compare]. unfold bind, utf8. rewrite Hbad. reflexivity.
Qed.

Lemma issue_receipt_no_id h1 today notes s :
  notes = [] \/ internal_check_utf8 notes = true ->
  MAX_U64 < ids_created (ctx s) + 1 ->
  issue_receipt h1 today notes s = Err ArithmeticError.
Proof.
  intros Hnotes Hid. unfold issue_receipt. unfold bind at 1.
  rewrite (notes_option_run notes s Hnotes).
  unfold bind at 1. unfold object_new, add_u64.
  destruct (Z.leb_spec (ids_created (ctx s) + 1) MAX_U64); [lia|reflexivity].
Qed.

Lemma bind_run {A B} (m : Tx A) (k : A -> Tx B) s a s1 :
  m s = Ok (a, s1) -> bind m k s = k a s1.
Proof. intros H. unfold bind. rewrite H. reflexivity. Qed.

(** Up to the counters: date, guard and streak. *)
Lemma check_in_prefix h notes s today cs ls evs :
  get_date_timestamp (epoch_timestamp_ms (ctx s)) = Ok today ->
  MS_PER_DAY <= today ->
  streak_step h today cs ls evs ->
  exists s1,
    ctx s1 = ctx s /\ emitted s1 = emitted s ++ evs /\
    transferred s1 = transferred s /\ shared s1 = shared s /\
    deleted s1 = deleted s /\
    check_in h notes s =
      bind (lift (add_u64 (total_checkins h) 1))
        (fun tc =>
           issue_receipt
             (mkHabit (id h) (owner h) (name h) (description h) (emoji h)
                (created_at h) (goal_type h) (goal_count h)
                tc cs (Z.max ls cs) (Some today) (is_public h))
             today notes) s1.
Proof.
  intros Hd Hday Hstep. unfold check_in.
  erewrite bind_run by reflexivity.
  erewrite bind_run by (unfold lift; rewrite Hd; reflexivity).
  destruct Hstep as [Hl | Hl Hcs | last Hl Hlt]; rewrite Hl.
  - erewrite bind_run by reflexivity.
    erewrite bind_run
      by (unfold lift, sub_u64; rewrite leb_true by exact Hday; reflexivity).
    erewrite bind_run by reflexivity.
    cbv zeta. tx_simpl.
    destruct (Z.ltb_spec (longest_streak h) 1);
      finish_prefix s.
  - erewrite bind_run
      by (unfold assert; destruct (Z.eqb_spec (today - MS_PER_DAY) today);
          [unfold MS_PER_DAY in *; lia | reflexivity]).
    erewrite bind_run
      by (unfold lift, sub_u64; rewrite leb_true by exact Hday; reflexivity).
    rewrite Z.eqb_refl.
    erewrite bind_run
      by (erewrite bind_run
            by (unfold lift, add_u64; rewrite leb_true by exact Hcs;
                reflexivity);
          reflexivity).
    cbv zeta. tx_simpl.
    destruct (Z.ltb_spec (longest_streak h) (current_streak h + 1));
      finish_prefix s.
  - erewrite bind_run
      by (unfold assert; destruct (Z.eqb_spec last today);
          [unfold MS_PER_DAY in *; lia | reflexivity]).
    erewrite bind_run
      by (unfold lift, sub_u64; rewrite leb_true by exact Hday; reflexivity).
    destruct (Z.eqb_spec last (today - MS_PER_DAY)); [lia|].
    destruct (Z.ltb_spec last (today - MS_PER_DAY)); [|lia].
    destruct (Z.ltb_spec (longest_streak h) (current_streak h)) as [Hb|Hb].
    + erewrite bind_run by (erewrite bind_run by reflexivity; reflexivity).
      cbv zeta. tx_simpl.
      destruct (Z.ltb_spec (current_streak h) 1);
        finish_prefix
          (mkStore (ctx s)
             (emitted s ++ [StreakBroken (id h) (current_streak h)])
             (transferred s) (shared s) (deleted s)).
    + erewrite bind_run by (erewrite bind_run by reflexivity; reflexivity).
      cbv zeta. tx_simpl.
      destruct (Z.ltb_spec (longest_streak h) 1);
        finish_prefix
          (mkStore (ctx s)
             (emitted s ++ [StreakBroken (id h) (current_streak h)])
             (transferred s) (shared s) (deleted s)).
Qed.

Lemma last_checkin_dec h today :
  {last_checkin_date h = Some today} + {last_checkin_date h <> Some today}.
Proof.
  destruct (last_checkin_date h) as [last|]; [|right; discriminate].
  destruct (Z.eq_dec last today) as [->|Hne]; [left; reflexivity|].
  right. congruence.
Qed.

Lemma check_in_invalid_date h notes s today last :
  get_date_timestamp (epoch_timestamp_ms (ctx s)) = Ok today ->
  MS_PER_DAY <= today ->
  last_checkin_date h = Some last ->
  last <> today ->
  today - MS_PER_DAY < last ->
  check_in h notes s = Err (MoveAbort HabitContract E_INVALID_DATE).
Proof.
  intros Hd Hday Hl Hne Hlate. unfold check_in.
  erewrite bind_run by reflexivity.
  erewrite bind_run by (unfold lift; rewrite Hd; reflexivity).
  rewrite Hl.
  erewrite bind_run
    by (unfold assert; destruct (Z.eqb_spec last today);
        [contradiction | reflexivity]).
  erewrite bind_run
    by (unfold lift, sub_u64; rewrite leb_true by exact Hday; reflexivity).
  destruct (Z.eqb_spec last (today - MS_PER_DAY)); [lia|].
  destruct (Z.ltb_spec last (today - MS_PER_DAY)); [lia|].
  reflexivity.
Qed.

Lemma check_in_streak_overflow h notes s today :
  get_date_timestamp (epoch_timestamp_ms (ctx s)) = Ok today ->
  MS_PER_DAY <= today ->
  last_checkin_date h = Some (today - MS_PER_DAY) ->
  MAX_U64 < current_streak h + 1 ->
  check_in h notes s = Err ArithmeticError.
Proof.
  intros Hd Hday Hl Hover. unfold check_in.
  erewrite bind_run by reflexivity.
  erewrite bind_run by (unfold lift; rewrite Hd; reflexivity).
  rewrite Hl.
  erewrite bind_run
    by (unfold assert; destruct (Z.eqb_spec (today - MS_PER_DAY) today);
        [unfold MS_PER_DAY in *; lia | reflexivity]).
  erewrite bind_run
    by (unfold lift, sub_u64; rewrite leb_true by exact Hday; reflexivity).
  rewrite Z.eqb_refl. unfold bind at 1. unfold bind at 1.
  unfold lift, add_u64.
  destruct (Z.leb_spec (current_streak h + 1) MAX_U64); [lia | reflexivity].
Qed.

(** Whether a streak branch applies is decided by [last_checkin_date]. *)
Lemma streak_step_cases h today :
  (exists cs ls evs, streak_step h today cs ls evs) \/
  (last_checkin_date h = Some (today - MS_PER_DAY) /\
   MAX_U64 < current_streak h + 1) \/
  (exists last, last_checkin_date h = Some last /\
                today - MS_PER_DAY < last).
Proof.
  destruct (last_checkin_date h) as [last|] eqn:Hl.
  - destruct (Z.lt_trichotomy last (today - MS_PER_DAY)) as [Hlt|[->|Hgt]].
    + left. do 3 eexists. eapply step_broken; eassumption.
    + destruct (Z.le_gt_cases (current_streak h + 1) MAX_U64) as [Hle|Hgt].
      * left. do 3 eexists. apply step_consecutive; assumption.
      * right. left. split; [reflexivity | exact Hgt].
    + right. right. exists last. split; [reflexivity | exact Hgt].
  - left. do 3 eexists. apply step_first. exact Hl.
Qed.

(** The table of [check_in]: which check decides, and with what result. *)
Lemma check_in_table h notes s :
  0 <= epoch_timestamp_ms (ctx s) ->
  check_in_case h notes s (day_id (epoch_timestamp_ms (ctx s)))
    (check_in h notes s).
Proof.
  intros Hnow.
  pose proof (get_date_timestamp_nonneg _ Hnow) as Hd.
  set (today := day_id (epoch_timestamp_ms (ctx s))) in *.
  destruct (last_checkin_dec h today) as [Hsame|Hdiff].
  - rewrite (check_in_guard h notes s today Hd Hsame).
    apply case_already. exact Hsame.
  - destruct (Z.lt_ge_cases today MS_PER_DAY) as [Hzero|Hday].
    + rewrite check_in_day_zero.
      * apply case_day_zero; assumption.
      * unfold today, day_id in Hzero.
        pose proof (mod_MS_bounds (epoch_timestamp_ms (ctx s))).
        assert (Hq := day_id_quotient (epoch_timestamp_ms (ctx s))).
        unfold day_id in Hq. unfold MS_PER_DAY in *. lia.
      * assert (today = 0) as <-; [|exact Hdiff].
        unfold today in *.
        assert (Hq := day_id_quotient (epoch_timestamp_ms (ctx s))).
        pose proof (Z.div_pos (epoch_timestamp_ms (ctx s)) MS_PER_DAY Hnow
                      ltac:(reflexivity)).
        unfold MS_PER_DAY in *. lia.
    + destruct (streak_step_cases h today)
        as [(cs & ls & evs & Hstep) | [[Hl Hover] | (last & Hl & Hlate)]].
      * destruct (check_in_prefix h notes s today cs ls evs Hd Hday Hstep)
          as (s1 & Hc1 & He1 & Ht1 & Hs1 & Hd1 & ->).
        unfold bind at 1. unfold lift, add_u64.
        destruct (Z.leb_spec (total_checkins h + 1) MAX_U64) as [Htc|Htc];
          [|eapply case_total_overflow; eassumption].
        destruct (list_eq_dec Byte.byte_eq_dec notes []) as [Hn|Hn].
        { destruct (Z.le_gt_cases (ids_created (ctx s) + 1) MAX_U64)
            as [Hid|Hid].
          - rewrite issue_receipt_run by (rewrite ?Hc1; auto).
            rewrite Hc1, He1, Ht1, Hs1, Hd1. rewrite <- app_assoc.
            cbn [id current_streak total_checkins].
            eapply case_checked_in; eauto.
          - rewrite issue_receipt_no_id by (rewrite ?Hc1; auto; lia).
            eapply case_no_id; eauto; lia. }
        destruct (internal_check_utf8 notes) eqn:Hv.
        { destruct (Z.le_gt_cases (ids_created (ctx s) + 1) MAX_U64)
            as [Hid|Hid].
          - rewrite issue_receipt_run by (rewrite ?Hc1; auto).
            rewrite Hc1, He1, Ht1, Hs1, Hd1. rewrite <- app_assoc.
            cbn [id current_streak total_checkins].
            eapply case_checked_in; eauto.
          - rewrite issue_receipt_no_id by (rewrite ?Hc1; auto; lia).
            eapply case_no_id; eauto; lia. }
        rewrite issue_receipt_bad_notes by assumption.
        eapply case_bad_notes; eassumption.
      * rewrite (check_in_streak_overflow h notes s today Hd Hday Hl Hover).
        apply case_streak_overflow; assumption.
      * rewrite (check_in_invalid_date h notes s today last Hd Hday Hl);
          [|congruence|exact Hlate].
        eapply case_invalid_date; try eassumption. congruence.
Qed.

End CheckInRuns.

Section CheckInOutcome.

Context {natives : Natives}.

Lemma streak_ready_step h today :
  streak_ready h today <-> exists cs ls evs, streak_step h today cs ls evs.
Proof.
  unfold streak_ready. split.
  - destruct (last_checkin_date h) as [last|] eqn:Hl.
    + intros [Hlt|[-> Hcs]]; do 3 eexists;
        [eapply step_broken; eassumption
        |apply step_consecutive; assumption].
    + intros _. do 3 eexists. apply step_first. exact Hl.
  - intros (cs & ls & evs & Hstep).
    destruct Hstep as [Hl | Hl Hcs | last Hl Hlt]; rewrite Hl; auto.
Qed.

(** A check-in whose preconditions hold goes through. *)
Lemma check_in_goes_through h notes s :
  0 <= epoch_timestamp_ms (ctx s) ->
  MS_PER_DAY <= day_id (epoch_timestamp_ms (ctx s)) ->
  streak_ready h (day_id (epoch_timestamp_ms (ctx s))) ->
  total_checkins h + 1 <= MAX_U64 ->
  notes = [] \/ internal_check_utf8 notes = true ->
  ids_created (ctx s) + 1 <= MAX_U64 ->
  exists r, check_in h notes s = Ok r.
Proof.
  intros Hnow Hday Hready Htc Hnotes Hid.
  apply streak_ready_step in Hready.
  destruct Hready as (cs & ls & evs & Hstep).
  destruct (check_in_prefix h notes s _ cs ls evs
              (get_date_timestamp_nonneg _ Hnow) Hday Hstep)
    as (s1 & Hc1 & _ & _ & _ & _ & ->).
  unfold bind at 1. unfold lift, add_u64.
  destruct (Z.leb_spec (total_checkins h + 1) MAX_U64); [|lia].
  rewrite issue_receipt_run by (rewrite ?Hc1; assumption).
  eexists. reflexivity.
Qed.

(** X6: on a [u64] clock [check_in] goes through exactly when the day of the
    clock is past epoch day 0, the last check-in (if any) is on an earlier
    day, the counters it raises have room, the notes are empty or valid
    UTF-8, and the id counter of the transaction has room. *)
Theorem check_in_succeeds_iff h notes s :
  0 <= epoch_timestamp_ms (ctx s) ->
  ((exists r, check_in h notes s = Ok r) <->
   MS_PER_DAY <= day_id (epoch_timestamp_ms (ctx s)) /\
   streak_ready h (day_id (epoch_timestamp_ms (ctx s))) /\
   total_checkins h + 1 <= MAX_U64 /\
   (notes = [] \/ internal_check_utf8 notes = true) /\
   ids_created (ctx s) + 1 <= MAX_U64).
Proof.
  intros Hnow. split.
  - intros [r Hr]. pose proof (check_in_table h notes s Hnow) as T.
    rewrite Hr in T. inversion T; subst.
    repeat split; try assumption.
    apply streak_ready_step. eauto.
  - intros (Hday & Hready & Htc & Hnotes & Hid).
    apply check_in_goes_through; assumption.
Qed.

(** X7: on a [u64] clock [check_in] aborts with [E_INVALID_DATE] exactly
    when the clock is past epoch day 0 and the habit's last check-in is on
    another day than today and later than yesterday. *)
Theorem check_in_invalid_date_iff h notes s :
  0 <= epoch_timestamp_ms (ctx s) ->
  (check_in h notes s = Err (MoveAbort HabitContract E_INVALID_DATE) <->
   MS_PER_DAY <= day_id (epoch_timestamp_ms (ctx s)) /\
   exists last,
     last_checkin_date h = Some last /\
     last <> day_id (epoch_timestamp_ms (ctx s)) /\
     day_id (epoch_timestamp_ms (ctx s)) - MS_PER_DAY < last).
Proof.
  intros Hnow. split.
  - intros Hr. pose proof (check_in_table h notes s Hnow) as T.
    rewrite Hr in T. inversion T; subst.
    split; [assumption|]. eexists. repeat split; eassumption.
  - intros (Hday & last & Hl & Hne & Hlate).
    eapply check_in_invalid_date; try eassumption.
    apply get_date_timestamp_nonneg. exact Hnow.
Qed.

(** X8: on a [u64] clock [check_in] aborts in [string::utf8], with code 1 of
    [std::string], exactly when it would go through but for its notes, which
    are not empty and not valid UTF-8.  The code of the already-checked-in
    guard is 1 as well, of another module. *)
Theorem check_in_bad_notes_iff h notes s :
  0 <= epoch_timestamp_ms (ctx s) ->
  (check_in h notes s = Err (MoveAbort StdString EINVALID_UTF8) <->
   MS_PER_DAY <= day_id (epoch_timestamp_ms (ctx s)) /\
   streak_ready h (day_id (epoch_timestamp_ms (ctx s))) /\
   total_checkins h + 1 <= MAX_U64 /\
   notes <> [] /\ internal_check_utf8 notes = false).
Proof.
  intros Hnow. pose proof (check_in_table h notes s Hnow) as T. split.
  - intros Hr. rewrite Hr in T. inversion T; subst.
    repeat split; try assumption. apply streak_ready_step. eauto.
  - intros (Hday & Hready & Htc & Hne & Hbad).
    apply streak_ready_step in Hready.
    destruct Hready as (cs & ls & evs & Hstep).
    destruct (check_in_prefix h notes s _ cs ls evs
                (get_date_timestamp_nonneg _ Hnow) Hday Hstep)
      as (s1 & _ & _ & _ & _ & _ & ->).
    unfold bind at 1. unfold lift, add_u64.
    destruct (Z.leb_spec (total_checkins h + 1) MAX_U64); [|lia].
    apply issue_receipt_bad_notes; assumption.
Qed.

End CheckInOutcome.

(* ================================================================= *)
(** ** One check-in per day *)

Section OncePerDay.

Context {natives : Natives}.

(** C5, as the code has it: take two [check_in] calls whose clocks are on
    the same day id, a day past epoch day 0.  The first call goes through
    exactly when the habit's last check-in is absent or no later than
    yesterday, the counters it raises and the id counter of its transaction
    have room, and its notes are empty or valid UTF-8.  When it goes through, the
    second call is rejected with [E_ALREADY_CHECKED_IN] whatever its notes
    and its sender, and the ledger stays as the first call left it.
    [check_in] aborts with that code exactly when [can_check_in_today]
    answers [false]. *)
Theorem check_in_twice_same_day l h notes1 notes2 c1 c2 :
  record l = Some h ->
  MS_PER_DAY <= day_id (epoch_timestamp_ms c1) ->
  day_id (epoch_timestamp_ms c2) = day_id (epoch_timestamp_ms c1) ->
  (snd (execute l (CheckInCall notes1) c1) = Success <->
   streak_ready h (day_id (epoch_timestamp_ms c1)) /\
   total_checkins h + 1 <= MAX_U64 /\
   (notes1 = [] \/ internal_check_utf8 notes1 = true) /\
   ids_created c1 + 1 <= MAX_U64) /\
  (snd (execute l (CheckInCall notes1) c1) = Success ->
   execute (fst (execute l (CheckInCall notes1) c1)) (CheckInCall notes2) c2 =
     (fst (execute l (CheckInCall notes1) c1),
      Failed (MoveAbort HabitContract E_ALREADY_CHECKED_IN))) /\
  (forall h0 notes s,
     check_in h0 notes s = Err (MoveAbort HabitContract E_ALREADY_CHECKED_IN)
     <-> can_check_in_today h0 (ctx s) = Ok false).
Proof.
  intros Hr Hday Hsame.
  assert (Hnow : 0 <= epoch_timestamp_ms (ctx (start c1))).
  { cbn [start ctx]. unfold day_id in Hday.
    pose proof (mod_MS_bounds (epoch_timestamp_ms c1)).
    unfold MS_PER_DAY in *. lia. }
  split; [|split].
  - unfold execute. rewrite Hr. split.
    + destruct (check_in h notes1 (start c1)) as [[h1 s1]|err] eqn:Hc;
        [intros _ | discriminate].
      pose proof (check_in_table h notes1 (start c1) Hnow) as T.
      rewrite Hc in T. inversion T; subst.
      repeat split; try assumption.
      apply streak_ready_step. eauto.
    + intros (Hready & Htc & Hnotes & Hid).
      destruct (check_in_goes_through h notes1 (start c1) Hnow Hday Hready
                  Htc Hnotes Hid) as [[h1 s1] Hc].
      rewrite Hc. reflexivity.
  - intros Hok. apply second_check_in_rejected; assumption.
  - intros h0 notes s. apply already_checked_in_iff.
Qed.

End OncePerDay.

Section CheckInEffects.

Context {natives : Natives}.

Lemma check_in_clock h notes s r :
  check_in h notes s = Ok r -> 0 <= epoch_timestamp_ms (ctx s).
Proof.
  destruct r as [h' s']. intros Hc. apply check_in_inv in Hc.
  destruct Hc as (today & cs & ls & evs & uid & no & Hd & _).
  apply get_date_timestamp_inv in Hd. destruct Hd as [-> Hpos].
  unfold day_id in Hpos.
  pose proof (mod_MS_bounds (epoch_timestamp_ms (ctx s))). lia.
Qed.

(** The result of a check-in that goes through, in full. *)
Lemma check_in_result h notes s h' s' :
  check_in h notes s = Ok (h', s') ->
  exists cs ls evs,
    streak_step h (day_id (epoch_timestamp_ms (ctx s))) cs ls evs /\
    MS_PER_DAY <= day_id (epoch_timestamp_ms (ctx s)) /\
    h' = mkHabit (id h) (owner h) (name h) (description h) (emoji h)
           (created_at h) (goal_type h) (goal_count h)
           (total_checkins h + 1) cs (Z.max ls cs)
           (Some (day_id (epoch_timestamp_ms (ctx s)))) (is_public h) /\
    s' = mkStore (bump (ctx s))
           (emitted s ++ evs ++
            [CheckInRecorded (id h) (day_id (epoch_timestamp_ms (ctx s)))
               cs (total_checkins h + 1)])
           (transferred s ++
            [(mkCheckIn (derive_id (tx_hash (ctx s)) (ids_created (ctx s)))
                (id h) (day_id (epoch_timestamp_ms (ctx s)))
                (receipt_notes notes), sender (ctx s))])
           (shared s) (deleted s).
Proof.
  intros Hc. pose proof (check_in_clock _ _ _ _ Hc) as Hnow.
  pose proof (check_in_table h notes s Hnow) as T.
  rewrite Hc in T. inversion T; subst. do 3 eexists.
  repeat split; eassumption.
Qed.

(** X9: the receipt of a check-in goes to the sender of the transaction,
    whoever owns the habit; it carries the habit's id and the day of the
    clock, which becomes the habit's [last_checkin_date], and its notes are
    absent exactly when the notes passed in are empty. *)
Theorem check_in_receipt h notes s h' s' :
  check_in h notes s = Ok (h', s') ->
  exists uid,
    transferred s' =
      transferred s ++
      [(mkCheckIn uid (id h) (day_id (epoch_timestamp_ms (ctx s)))
          (match notes with [] => None | _ => Some notes end),
        sender (ctx s))] /\
    last_checkin_date h' = Some (day_id (epoch_timestamp_ms (ctx s))) /\
    uid = derive_id (tx_hash (ctx s)) (ids_created (ctx s)).
Proof.
  intros Hc. apply check_in_result in Hc.
  destruct Hc as (cs & ls & evs & _ & _ & -> & ->).
  eexists. repeat split.
Qed.

(** X10: [check_in] is not gated on the owner: when it goes through for one
    sender, it goes through for every sender whose transaction has the clock
    on the same day and can create an object, and it leaves the habit in the
    same state. *)
Theorem check_in_any_sender h notes s h' s' s2 :
  check_in h notes s = Ok (h', s') ->
  0 <= epoch_timestamp_ms (ctx s2) ->
  day_id (epoch_timestamp_ms (ctx s2)) = day_id (epoch_timestamp_ms (ctx s)) ->
  ids_created (ctx s2) + 1 <= MAX_U64 ->
  exists s2',
    check_in h notes s2 = Ok (h', s2') /\
    exists receipt,
      transferred s2' = transferred s2 ++ [(receipt, sender (ctx s2))].
Proof.
  intros Hc Hnow2 Hsame Hid2.
  pose proof (check_in_clock _ _ _ _ Hc) as Hnow.
  assert (Hpre : total_checkins h + 1 <= MAX_U64 /\
                 (notes = [] \/ internal_check_utf8 notes = true)).
  { pose proof (check_in_table h notes s Hnow) as T. rewrite Hc in T.
    inversion T. split; assumption. }
  destruct Hpre as [Htc Hnotes].
  apply check_in_result in Hc.
  destruct Hc as (cs & ls & evs & Hstep & Hday & -> & _).
  destruct (check_in_goes_through h notes s2 Hnow2) as [[h2 s2'] Hc2];
    try assumption.
  { rewrite Hsame. exact Hday. }
  { rewrite Hsame. apply streak_ready_step. eauto. }
  exists s2'.
  pose proof Hc2 as Hr2. apply check_in_result in Hr2.
  destruct Hr2 as (cs2 & ls2 & evs2 & Hstep2 & _ & Eh & Es).
  rewrite Hsame in Hstep2, Eh.
  assert (cs2 = cs /\ ls2 = ls) as [-> ->].
  { destruct Hstep as [Hl | Hl _ | l Hl Hlt];
      destruct Hstep2 as [Hl2 | Hl2 _ | l2 Hl2 Hlt2];
      try (split; reflexivity); rewrite Hl in Hl2;
      try discriminate Hl2; inversion Hl2; lia. }
  split; [rewrite Hc2, Eh; reflexivity|].
  rewrite Es. eexists. reflexivity.
Qed.

(** X11: a check-in on the day after the last one raises [current_streak]
    by exactly 1, raises [longest_streak] to it if it was lower, and emits
    no [StreakBroken]. *)
Theorem consecutive_check_in h notes s h' s' :
  last_checkin_date h =
    Some (day_id (epoch_timestamp_ms (ctx s)) - MS_PER_DAY) ->
  check_in h notes s = Ok (h', s') ->
  current_streak h' = current_streak h + 1 /\
  longest_streak h' = Z.max (longest_streak h) (current_streak h + 1) /\
  exists evs,
    emitted s' = emitted s ++ evs /\ filter is_streak_broken evs = [].
Proof.
  intros Hl Hc. apply check_in_result in Hc.
  destruct Hc as (cs & ls & evs & Hstep & _ & -> & ->).
  destruct Hstep as [Hn | Hn _ | l Hn Hlt]; rewrite Hn in Hl;
    [discriminate Hl | | inversion Hl; lia].
  cbn. repeat split. eexists. split; reflexivity.
Qed.

(** X23: a check-in that goes through emits either one [CheckInRecorded],
    or one [StreakBroken] carrying the streak that ended followed by one
    [CheckInRecorded]; the [StreakBroken] is there exactly when the habit
    had a last check-in before yesterday.  The [CheckInRecorded] carries the
    day of the clock and the new [current_streak] and [total_checkins]. *)
Theorem check_in_events h notes s h' s' :
  check_in h notes s = Ok (h', s') ->
  exists broken,
    emitted s' =
      emitted s ++ broken ++
      [CheckInRecorded (id h) (day_id (epoch_timestamp_ms (ctx s)))
         (current_streak h') (total_checkins h')] /\
    (broken = [] \/ broken = [StreakBroken (id h) (current_streak h)]) /\
    (broken <> [] <->
     exists last,
       last_checkin_date h = Some last /\
       last < day_id (epoch_timestamp_ms (ctx s)) - MS_PER_DAY).
Proof.
  intros Hc. apply check_in_result in Hc.
  destruct Hc as (cs & ls & evs & Hstep & _ & -> & ->).
  exists evs. cbn [emitted current_streak total_checkins].
  split; [reflexivity|].
  destruct Hstep as [Hl | Hl _ | last Hl Hlt].
  - split; [left; reflexivity|]. split; [intros F; contradiction|].
    intros (last & E & _). rewrite Hl in E. discriminate E.
  - split; [left; reflexivity|]. split; [intros F; contradiction|].
    intros (last & E & Hlt). rewrite Hl in E. inversion E. lia.
  - split; [right; reflexivity|]. split; [|discriminate].
    intros _. exists last. split; assumption.
Qed.

(** A run of daily check-ins on a habit whose last check-in was the day
    before the run. *)
Lemma daily_checkins_continue calls : forall l h day,
  record l = Some h ->
  last_checkin_date h = Some (day - MS_PER_DAY) ->
  MS_PER_DAY <= day ->
  current_streak h <= longest_streak h ->
  daily_checkins day calls ->
  current_streak h + Z.of_nat (length calls) <= MAX_U64 ->
  total_checkins h + Z.of_nat (length calls) <= MAX_U64 ->
  exists h',
    record (run l calls) = Some h' /\
    current_streak h' = current_streak h + Z.of_nat (length calls) /\
    total_checkins h' = total_checkins h + Z.of_nat (length calls) /\
    longest_streak h' =
      Z.max (longest_streak h)
        (current_streak h + Z.of_nat (length calls)) /\
    last_checkin_date h' =
      Some (day - MS_PER_DAY + Z.of_nat (length calls) * MS_PER_DAY).
Proof.
  induction calls as [|[call c] rest IH];
    intros l h day Hr Hl Hday Hinv Hd Hcs Htc.
  - exists h. cbn [run length Z.of_nat]. rewrite Hl.
    repeat split; try lia; [exact Hr | f_equal; lia].
  - destruct call as [notes| |]; try contradiction.
    destruct Hd as (Hnow & Hdid & Hnotes & Hid & Hrest).
    cbn [length] in Hcs, Htc. rewrite Nat2Z.inj_succ in Hcs, Htc.
    destruct (check_in_goes_through h notes (start c) Hnow) as [[h1 s1] Hc];
      try assumption; try lia.
    { cbn [start ctx]. rewrite Hdid. exact Hday. }
    { cbn [start ctx]. rewrite Hdid. unfold streak_ready. rewrite Hl.
      right. split; [reflexivity | lia]. }
    pose proof Hc as Hres. apply check_in_result in Hres.
    cbn [start ctx] in Hres. rewrite Hdid in Hres.
    destruct Hres as (cs & ls & evs & Hstep & _ & Eh & _).
    destruct Hstep as [Hn | Hn _ | last Hn Hlt]; rewrite Hn in Hl;
      [discriminate Hl | | inversion Hl; lia].
    cbn [run]. unfold execute at 1. rewrite Hr, Hc. cbn [fst].
    destruct (IH (commit l (Some h1) s1) h1 (day + MS_PER_DAY))
      as (h' & Hr' & Hcs' & Htc' & Hls' & Hl').
    + reflexivity.
    + rewrite Eh. cbn. f_equal. lia.
    + unfold MS_PER_DAY in *. lia.
    + rewrite Eh. cbn. lia.
    + exact Hrest.
    + rewrite Eh. cbn. lia.
    + rewrite Eh. cbn. lia.
    + exists h'. rewrite Eh in Hcs', Htc', Hls'. cbn in Hcs', Htc', Hls'.
      cbn [length]. rewrite Nat2Z.inj_succ.
      repeat split; try assumption; try lia.
      rewrite Hl'. f_equal. lia.
Qed.

(** X12: on a habit that has never been checked in, [k >= 1] check-ins on
    consecutive days, the first past epoch day 0, all go through and leave
    [current_streak = k], [total_checkins] raised by [k], and
    [longest_streak] at [k] unless it was higher. *)
Theorem daily_checkins_streak l h day calls :
  record l = Some h ->
  last_checkin_date h = None ->
  MS_PER_DAY <= day ->
  calls <> [] ->
  daily_checkins day calls ->
  Z.of_nat (length calls) <= MAX_U64 ->
  total_checkins h + Z.of_nat (length calls) <= MAX_U64 ->
  exists h',
    record (run l calls) = Some h' /\
    current_streak h' = Z.of_nat (length calls) /\
    total_checkins h' = total_checkins h + Z.of_nat (length calls) /\
    longest_streak h' = Z.max (longest_streak h) (Z.of_nat (length calls)) /\
    last_checkin_date h' =
      Some (day + (Z.of_nat (length calls) - 1) * MS_PER_DAY).
Proof.
  intros Hr Hl Hday Hne Hd Hk Htc.
  destruct calls as [|[call c] rest]; [contradiction|].
  destruct call as [notes| |]; try contradiction.
  destruct Hd as (Hnow & Hdid & Hnotes & Hid & Hrest).
  cbn [length] in *. rewrite Nat2Z.inj_succ in *.
  destruct (check_in_goes_through h notes (start c) Hnow) as [[h1 s1] Hc];
    try assumption; try lia.
  { cbn [start ctx]. rewrite Hdid. exact Hday. }
  { cbn [start ctx]. rewrite Hdid. unfold streak_ready. rewrite Hl.
    exact I. }
  pose proof Hc as Hres. apply check_in_result in Hres.
  cbn [start ctx] in Hres. rewrite Hdid in Hres.
  destruct Hres as (cs & ls & evs & Hstep & _ & Eh & _).
  destruct Hstep as [Hn | Hn _ | last Hn Hlt]; rewrite Hn in Hl;
    try discriminate Hl.
  cbn [run]. unfold execute at 1. rewrite Hr, Hc. cbn [fst].
  destruct (daily_checkins_continue rest (commit l (Some h1) s1) h1
              (day + MS_PER_DAY))
    as (h' & Hr' & Hcs' & Htc' & Hls' & Hl').
  - reflexivity.
  - rewrite Eh. cbn [current_streak total_checkins longest_streak last_checkin_date]. f_equal. lia.
  - unfold MS_PER_DAY in *. lia.
  - rewrite Eh. cbn [current_streak total_checkins longest_streak last_checkin_date]. lia.
  - exact Hrest.
  - rewrite Eh. cbn [current_streak total_checkins longest_streak last_checkin_date]. lia.
  - rewrite Eh. cbn [current_streak total_checkins longest_streak last_checkin_date]. lia.
  - exists h'. rewrite Eh in Hcs', Htc', Hls'. cbn [current_streak total_checkins longest_streak last_checkin_date] in Hcs', Htc', Hls'.
    repeat split; try assumption; try lia.
    rewrite Hl'. f_equal. lia.
Qed.

End CheckInEffects.

Section Update.

Context {natives : Natives}.

Lemma update_habit_run h n d e gt gc p s :
  owner h = sender (ctx s) ->
  match gt with Some g => g <= GOAL_TYPE_MONTHLY | None => True end ->
  update_habit h n d e gt gc p s =
    Ok (mkHabit (id h) (owner h) (or_else n (name h))
          (or_else d (description h)) (or_else e (emoji h)) (created_at h)
          (or_else gt (goal_type h)) (or_else gc (goal_count h))
          (total_checkins h) (current_streak h) (longest_streak h)
          (last_checkin_date h) (or_else p (is_public h)),
        mkStore (ctx s) (emitted s ++ [HabitUpdated (id h)])
          (transferred s) (shared s) (deleted s)).
Proof.
  intros Ho Hg. unfold update_habit.
  erewrite bind_run by reflexivity.
  erewrite bind_run
    by (unfold assert; rewrite Ho, Z.eqb_refl; reflexivity).
  set (h1 := match n with Some v => set_name h v | None => h end).
  set (h2 := match d with Some v => set_description h1 v | None => h1 end).
  set (h3 := match e with Some v => set_emoji h2 v | None => h2 end).
  cbv zeta.
  assert (E3 : h3 = mkHabit (id h) (owner h) (or_else n (name h))
                      (or_else d (description h)) (or_else e (emoji h))
                      (created_at h) (goal_type h) (goal_count h)
                      (total_checkins h) (current_streak h)
                      (longest_streak h) (last_checkin_date h)
                      (is_public h)).
  { subst h3 h2 h1. destruct h, n, d, e; reflexivity. }
  clearbody h3. clear h1 h2. subst h3.
  erewrite bind_run.
  2:{ instantiate (1 := s).
      instantiate (1 := mkHabit (id h) (owner h) (or_else n (name h))
                      (or_else d (description h)) (or_else e (emoji h))
                      (created_at h) (or_else gt (goal_type h))
                      (goal_count h) (total_checkins h) (current_streak h)
                      (longest_streak h) (last_checkin_date h)
                      (is_public h)).
      destruct gt as [g|]; [|reflexivity].
      erewrite bind_run
        by (unfold assert; rewrite (leb_true _ _ Hg); reflexivity).
      reflexivity. }
  destruct gc, p; reflexivity.
Qed.

(** X13: [update_habit] goes through exactly when the sender is the owner
    and the [goal_type], if supplied, is at most 2.  Whenever it goes
    through, it has overwritten the supplied fields, left every other field
    as it was (id, owner, creation time, counters and last check-in day are
    never touched), and emitted one [HabitUpdated], also when nothing was
    supplied. *)
Theorem update_habit_outcome h n d e gt gc p s :
  ((exists r, update_habit h n d e gt gc p s = Ok r) <->
   owner h = sender (ctx s) /\
   match gt with Some g => g <= GOAL_TYPE_MONTHLY | None => True end) /\
  (forall r,
     update_habit h n d e gt gc p s = Ok r ->
     r = (mkHabit (id h) (owner h) (or_else n (name h))
            (or_else d (description h)) (or_else e (emoji h)) (created_at h)
            (or_else gt (goal_type h)) (or_else gc (goal_count h))
            (total_checkins h) (current_streak h) (longest_streak h)
            (last_checkin_date h) (or_else p (is_public h)),
          mkStore (ctx s) (emitted s ++ [HabitUpdated (id h)])
            (transferred s) (shared s) (deleted s))).
Proof.
  assert (Hcond : forall r,
            update_habit h n d e gt gc p s = Ok r ->
            owner h = sender (ctx s) /\
            match gt with
            | Some g => g <= GOAL_TYPE_MONTHLY
            | None => True
            end).
  { intros [h' s'] Hu. apply update_habit_inv in Hu as Hi.
    destruct Hi as (Ho & _).
    split; [exact Ho|]. destruct gt as [g|]; [|exact I].
    destruct (Z.le_gt_cases g GOAL_TYPE_MONTHLY) as [Hle|Hgt]; [exact Hle|].
    rewrite (update_habit_invalid_goal_type h n d e g gc p s Ho Hgt) in Hu.
    discriminate Hu. }
  split.
  - split.
    + intros [r Hu]. exact (Hcond r Hu).
    + intros [Ho Hg]. eexists. apply update_habit_run; assumption.
  - intros r Hu. destruct (Hcond r Hu) as [Ho Hg].
    rewrite (update_habit_run h n d e gt gc p s Ho Hg) in Hu.
    inversion Hu. reflexivity.
Qed.

(** X14: an update is idempotent: when it goes through, the same update on
    the habit it returned returns that habit again. *)
Theorem update_habit_idempotent h n d e gt gc p s h' s' s2 :
  update_habit h n d e gt gc p s = Ok (h', s') ->
  sender (ctx s2) = sender (ctx s) ->
  exists s2', update_habit h' n d e gt gc p s2 = Ok (h', s2').
Proof.
  intros Hu Hs.
  destruct (update_habit h n d e gt gc p s) as [[h1 s1]|err] eqn:Hu1;
    [|discriminate Hu].
  assert (Hcond : owner h = sender (ctx s) /\
                  match gt with
                  | Some g => g <= GOAL_TYPE_MONTHLY
                  | None => True
                  end).
  { apply update_habit_inv in Hu1 as Hi. destruct Hi as (Ho & _).
    split; [exact Ho|]. destruct gt as [g|]; [|exact I].
    destruct (Z.le_gt_cases g GOAL_TYPE_MONTHLY) as [Hle|Hgt]; [exact Hle|].
    rewrite (update_habit_invalid_goal_type h n d e g gc p s Ho Hgt) in Hu1.
    discriminate Hu1. }
  pose proof (update_habit_run h n d e gt gc p s (proj1 Hcond) (proj2 Hcond))
    as E.
  rewrite Hu1 in E. inversion E as [[Eh Es]]. clear E Es.
  inversion Hu as [[Eh' Es']]. subst h1 s1. clear Hu.
  exists (mkStore (ctx s2) (emitted s2 ++ [HabitUpdated (id h')])
            (transferred s2) (shared s2) (deleted s2)).
  rewrite (update_habit_run h' n d e gt gc p s2).
  - subst h'. destruct n, d, e, gt, gc, p; reflexivity.
  - subst h'. cbn [owner]. destruct Hcond; congruence.
  - apply Hcond.
Qed.

(** X15: [delete_habit] called by the owner always goes through: the habit
    is removed, one [HabitDeleted] with its id is emitted, and the receipts
    handed out before stay where they are. *)
Theorem owner_delete l h c :
  record l = Some h ->
  sender c = owner h ->
  execute l DeleteCall c =
    (mkLedger None (receipts l) (log l ++ [HabitDeleted (id h)]), Success).
Proof.
  intros Hr Ho. unfold execute. rewrite Hr.
  unfold delete_habit, bind, tx_sender, assert, ret, object_delete, emit,
    object_id.
  cbn [start ctx]. rewrite Ho, Z.eqb_refl.
  unfold commit. cbn. rewrite app_nil_r. reflexivity.
Qed.

End Update.

Section Reachability.

Context {natives : Natives}.

(** What one transaction keeps of a record that survives it. *)
Lemma execute_keeps l call c h h' :
  record l = Some h ->
  record (fst (execute l call c)) = Some h' ->
  id h' = id h /\ owner h' = owner h /\ created_at h' = created_at h /\
  (goal_type h <= GOAL_TYPE_MONTHLY -> goal_type h' <= GOAL_TYPE_MONTHLY) /\
  (counters_consistent h -> counters_consistent h').
Proof.
  intros Hr. unfold execute. rewrite Hr.
  destruct call as [notes | n d e gt gc p |].
  - destruct (check_in h notes (start c)) as [[h1 s1]|err] eqn:Hc; cbn.
    + intros E. inversion E. subst h1. clear E.
      apply check_in_result in Hc.
      destruct Hc as (cs & ls & evs & Hstep & Hday & -> & _).
      cbn [id owner created_at goal_type].
      do 3 (split; [reflexivity|]). split; [exact (fun H => H)|].
      intros Hcons. unfold counters_consistent in *.
      cbn [last_checkin_date current_streak longest_streak total_checkins].
      pose proof (day_id_quotient (epoch_timestamp_ms (ctx (start c)))) as Hq.
      assert (Hmod : day_id (epoch_timestamp_ms (ctx (start c)))
                     mod MS_PER_DAY = 0).
      { rewrite Hq, Z.mul_comm. apply Z.mod_mul. discriminate. }
      destruct Hstep as [Hl | Hl Hcs | last Hl Hlt]; rewrite Hl in Hcons;
        repeat split; try assumption; lia.
    + rewrite Hr. intros E. inversion E. subst. repeat split; auto.
  - destruct (update_habit h n d e gt gc p (start c)) as [[h1 s1]|err] eqn:Hu;
      cbn.
    + intros E. inversion E. subst h1. clear E.
      pose proof Hu as Hi. apply update_habit_inv in Hi.
      destruct Hi as (Ho & Hid & Hown & Hcr & Htc & Hcs & Hls & Hl & _).
      repeat split; try assumption.
      * intros Hg. destruct gt as [g|].
        -- destruct (Z.le_gt_cases g GOAL_TYPE_MONTHLY) as [Hle|Hgt].
           ++ rewrite (update_habit_run h n d e (Some g) gc p (start c)
                         Ho Hle) in Hu.
              inversion Hu. cbn. exact Hle.
           ++ rewrite (update_habit_invalid_goal_type h n d e g gc p
                         (start c) Ho Hgt) in Hu. discriminate Hu.
        -- rewrite (update_habit_run h n d e None gc p (start c) Ho I)
             in Hu.
           inversion Hu. cbn. exact Hg.
      * unfold counters_consistent. rewrite Hl, Htc, Hcs, Hls. exact (fun H => H).
    + rewrite Hr. intros E. inversion E. subst. repeat split; auto.
  - destruct (delete_habit h (start c)) as [[u s1]|err]; cbn.
    + discriminate.
    + rewrite Hr. intros E. inversion E. subst. repeat split; auto.
Qed.

Lemma created_habit n d e gt gc p c l :
  execute_create n d e gt gc p c = Ok l ->
  exists h,
    record l = Some h /\ goal_type h <= GOAL_TYPE_MONTHLY /\
    counters_consistent h /\ owner h = sender c /\
    created_at h = epoch_timestamp_ms c.
Proof.
  unfold execute_create. intros H.
  destruct (create_habit n d e gt gc p (start c)) as [[hid s']|] eqn:Hc;
    [|discriminate].
  apply create_habit_inv in Hc. destruct Hc as (Hgt & Hs & _ & _).
  inversion H. subst l. rewrite Hs. cbn. eexists. split; [reflexivity|].
  cbn. unfold counters_consistent. cbn. repeat split. exact Hgt.
Qed.

(** X16: in every reachable state [goal_type] is at most 2: [create_habit]
    and [update_habit] both reject anything above, and nothing else writes
    the field. *)
Theorem goal_type_valid l :
  Reachable l ->
  forall h, record l = Some h -> goal_type h <= GOAL_TYPE_MONTHLY.
Proof.
  induction 1 as [n d e gt gc p c l Hc | l call c Hreach IH].
  - apply created_habit in Hc. destruct Hc as (h & Hr & Hg & _).
    intros h' E. rewrite Hr in E. inversion E. subst. exact Hg.
  - intros h' Hr'. destruct (record l) as [h|] eqn:Hr.
    + destruct (execute_keeps l call c h h' Hr Hr') as (_ & _ & _ & Hg & _).
      apply Hg. apply IH. reflexivity.
    + rewrite (execute_gone l call c Hr) in Hr'. cbn in Hr'.
      rewrite Hr in Hr'. discriminate Hr'.
Qed.

(** X17: in every reachable state the counters agree with the last check-in
    day: a habit without one has all three counters at 0; a habit with one
    has it on a day boundary past epoch day 0, and
    [1 <= current_streak <= longest_streak <= total_checkins]. *)
Theorem counters_agree l :
  Reachable l ->
  forall h, record l = Some h -> counters_consistent h.
Proof.
  induction 1 as [n d e gt gc p c l Hc | l call c Hreach IH].
  - apply created_habit in Hc. destruct Hc as (h & Hr & _ & Hk & _).
    intros h' E. rewrite Hr in E. inversion E. subst. exact Hk.
  - intros h' Hr'. destruct (record l) as [h|] eqn:Hr.
    + destruct (execute_keeps l call c h h' Hr Hr') as (_ & _ & _ & _ & Hk).
      apply Hk. apply IH. reflexivity.
    + rewrite (execute_gone l call c Hr) in Hr'. cbn in Hr'.
      rewrite Hr in Hr'. discriminate Hr'.
Qed.

(** X18: no trace of transactions changes the id, the owner or the creation
    time of a habit: whoever checks in or updates, the owner stays the
    sender of [create_habit]. *)
Theorem identity_immutable n d e gt gc p c0 l0 calls h :
  execute_create n d e gt gc p c0 = Ok l0 ->
  record (run l0 calls) = Some h ->
  owner h = sender c0 /\
  created_at h = epoch_timestamp_ms c0 /\
  exists h0, record l0 = Some h0 /\ id h = id h0.
Proof.
  intros Hc. apply created_habit in Hc.
  destruct Hc as (h0 & Hr0 & _ & _ & Ho & Ht).
  assert (G : forall calls l h1 h2,
             record l = Some h1 -> record (run l calls) = Some h2 ->
             id h2 = id h1 /\ owner h2 = owner h1 /\
             created_at h2 = created_at h1).
  { clear. induction calls as [|[call c] rest IH]; intros l h1 h2 Hr Hr2.
    - cbn in Hr2. rewrite Hr in Hr2. inversion Hr2. repeat split.
    - cbn [run] in Hr2.
      destruct (record (fst (execute l call c))) as [hm|] eqn:Hm.
      + destruct (execute_keeps l call c h1 hm Hr Hm) as (Hi & Hw & Hk & _).
        destruct (IH _ hm h2 Hm Hr2) as (Hi2 & Hw2 & Hk2).
        repeat split; congruence.
      + destruct (successful_checkins_gone rest _ Hm) as [Hrun _].
        rewrite Hrun, Hm in Hr2. discriminate Hr2. }
  intros Hr. destruct (G calls l0 h0 h Hr0 Hr) as (Hi & Hw & Hk).
  split; [congruence|]. split; [congruence|].
  exists h0. split; [exact Hr0 | exact Hi].
Qed.

End Reachability.

Section Views.

Context {natives : Natives}.

(** X19: after a check-in that went through, [can_check_in_today] answers
    [false] for every clock on the day of that check-in and [true] for
    every clock on any other day. *)
Theorem can_check_in_after h notes s h' s' c :
  check_in h notes s = Ok (h', s') ->
  0 <= epoch_timestamp_ms c ->
  can_check_in_today h' c =
    Ok (negb (day_id (epoch_timestamp_ms (ctx s))
              =? day_id (epoch_timestamp_ms c))).
Proof.
  intros Hc Hnow. apply check_in_result in Hc.
  destruct Hc as (cs & ls & evs & _ & _ & -> & _).
  unfold can_check_in_today, bindR.
  rewrite get_date_timestamp_nonneg by exact Hnow. reflexivity.
Qed.

(** X20: the event log tells the counters: in every reachable state the
    latest [CheckInRecorded] carries the habit's [last_checkin_date],
    [current_streak] and [total_checkins], and there is none exactly when
    the habit has never been checked in. *)
Theorem log_tells_counters l :
  Reachable l ->
  forall h, record l = Some h -> latest_checkin (log l) = recorded_state h.
Proof.
  induction 1 as [n d e gt gc p c l Hc | l call c Hreach IH].
  - apply execute_create_inv in Hc. destruct Hc as [hid ->].
    intros h E. inversion E. reflexivity.
  - intros h' Hr'. destruct (record l) as [h|] eqn:Hr.
    + specialize (IH h eq_refl). revert Hr'. unfold execute. rewrite Hr.
      destruct call as [notes | n d e gt gc p |].
      * destruct (check_in h notes (start c)) as [[h1 s1]|err] eqn:Hc; cbn.
        -- intros E. inversion E. subst h1. clear E.
           apply check_in_result in Hc.
           destruct Hc as (cs & ls & evs & Hstep & _ & -> & ->).
           unfold commit, latest_checkin. cbn [log emitted start].
           rewrite !fold_left_app. reflexivity.
        -- rewrite Hr. intros E. inversion E. subst. exact IH.
      * destruct (update_habit h n d e gt gc p (start c))
          as [[h1 s1]|err] eqn:Hu; cbn.
        -- intros E. inversion E. subst h1. clear E.
           apply update_habit_inv in Hu.
           destruct Hu as (_ & _ & _ & _ & Htc & Hcs & _ & Hl & Hem & _).
           unfold commit, latest_checkin in *. cbn [log]. rewrite Hem.
           cbn [emitted start app]. rewrite fold_left_app. cbn [fold_left].
           rewrite IH. unfold recorded_state. rewrite Hl, Htc, Hcs.
           reflexivity.
        -- rewrite Hr. intros E. inversion E. subst. exact IH.
      * destruct (delete_habit h (start c)) as [[u s1]|err]; cbn.
        -- discriminate.
        -- rewrite Hr. intros E. inversion E. subst. exact IH.
    + rewrite (execute_gone l call c Hr) in Hr'. cbn in Hr'.
      rewrite Hr in Hr'. discriminate Hr'.
Qed.

End Views.

Lemma get_completion_rate_value h period_days :
  0 < total_checkins h ->
  0 < period_days * goal_count h <= MAX_U64 ->
  0 < period_days ->
  total_checkins h * 100 <= MAX_U64 ->
  get_completion_rate h period_days =
    Ok (Z.min 100 (total_checkins h * 100 / (period_days * goal_count h))).
Proof.
  intros Htc Hexp Hpd Hs.
  unfold get_completion_rate, mul_u64, div_u64, bindR.
  destruct (Z.eqb_spec (total_checkins h) 0); [lia|].
  destruct (Z.eqb_spec period_days 0); [lia|]. cbn [orb].
  destruct (Z.leb_spec (period_days * goal_count h) MAX_U64); [|lia].
  destruct (Z.eqb_spec (period_days * goal_count h) 0); [lia|].
  destruct (Z.leb_spec (total_checkins h * 100) MAX_U64); [|lia].
  destruct (Z.ltb_spec 100
              (total_checkins h * 100 / (period_days * goal_count h)));
    f_equal; lia.
Qed.

(** X21: where [get_completion_rate] computes a quotient, that is, for a
    habit with check-ins, a period and a goal above 0 and products within
    [u64], it answers 100 exactly when [total_checkins] has reached
    [period_days * goal_count], and it never falls when [total_checkins]
    grows. *)
Theorem completion_rate_full h period_days :
  0 < total_checkins h ->
  0 < period_days ->
  0 < goal_count h ->
  period_days * goal_count h <= MAX_U64 ->
  total_checkins h * 100 <= MAX_U64 ->
  (get_completion_rate h period_days = Ok 100 <->
   period_days * goal_count h <= total_checkins h) /\
  forall more r1 r2,
    0 <= more ->
    (total_checkins h + more) * 100 <= MAX_U64 ->
    get_completion_rate h period_days = Ok r1 ->
    get_completion_rate (set_total_checkins h (total_checkins h + more))
      period_days = Ok r2 ->
    r1 <= r2.
Proof.
  intros Htc Hpd Hgc Hexp Hs.
  assert (Hpos : 0 < period_days * goal_count h) by nia.
  rewrite (get_completion_rate_value h period_days) by lia.
  split.
  - split.
    + intros E. inversion E as [Hmin].
      assert (Hq : 100 <= total_checkins h * 100
                           / (period_days * goal_count h)) by lia.
      destruct (Z.le_gt_cases (period_days * goal_count h) (total_checkins h))
        as [Hle|Hgt]; [exact Hle|].
      exfalso.
      assert (total_checkins h * 100 / (period_days * goal_count h) < 100).
      { apply Z.div_lt_upper_bound; [exact Hpos | nia]. }
      lia.
    + intros Hle. f_equal.
      assert (100 <= total_checkins h * 100 / (period_days * goal_count h)).
      { apply Z.div_le_lower_bound; [exact Hpos | nia]. }
      lia.
  - intros more r1 r2 Hmore Hs2 E1.
    rewrite (get_completion_rate_value _ period_days); cbn; try lia.
    intros E2. inversion E1. inversion E2.
    assert (total_checkins h * 100 / (period_days * goal_count h)
            <= (total_checkins h + more) * 100
               / (period_days * goal_count h)).
    { apply Z.div_le_mono; [exact Hpos | nia]. }
    lia.
Qed.

(* ================================================================= *)
(** ** The goal type helpers of the client *)

Section Client.

Context {natives : Natives}.

(** X22: [goalTypeToNumber] maps ["daily"] to 0, ["weekly"] to 1,
    ["monthly"] to 2 and every other string to 0; [goalTypeToString] maps
    0, 1, 2 back to these names and every other integer to ["daily"]; so
    the two are inverse to each other on the three goal types and on 0, 1,
    2, and whatever goal type string the hook passes to [create_habit], the
    number is within the contract's range and the call does not abort with
    [E_INVALID_GOAL_TYPE]. *)
Theorem goal_type_round_trip :
  (goalTypeToNumber "daily" = 0 /\ goalTypeToNumber "weekly" = 1 /\
   goalTypeToNumber "monthly" = 2) /\
  (forall g, g <> "daily"%string -> g <> "weekly"%string ->
             g <> "monthly"%string -> goalTypeToNumber g = 0) /\
  (goalTypeToString 0 = "daily"%string /\
   goalTypeToString 1 = "weekly"%string /\
   goalTypeToString 2 = "monthly"%string) /\
  (forall k, k < 0 \/ 2 < k -> goalTypeToString k = "daily"%string) /\
  (forall g, In g ["daily"; "weekly"; "monthly"]%string ->
             goalTypeToString (goalTypeToNumber g) = g) /\
  (forall k, 0 <= k <= 2 -> goalTypeToNumber (goalTypeToString k) = k) /\
  (forall g, 0 <= goalTypeToNumber g <= GOAL_TYPE_MONTHLY) /\
  (forall g n d e gc p s,
     create_habit n d e (goalTypeToNumber g) gc p s <>
     Err (MoveAbort HabitContract E_INVALID_GOAL_TYPE)).
Proof.
  assert (Hrange : forall g, 0 <= goalTypeToNumber g <= GOAL_TYPE_MONTHLY).
  { intros g. unfold goalTypeToNumber, GOAL_TYPE_MONTHLY.
    destruct (String.eqb g "daily"); [lia|].
    destruct (String.eqb g "weekly"); [lia|].
    destruct (String.eqb g "monthly"); lia. }
  split; [repeat split|].
  split.
  { intros g Hd Hw Hm. unfold goalTypeToNumber.
    destruct (String.eqb_spec g "daily"); [contradiction|].
    destruct (String.eqb_spec g "weekly"); [contradiction|].
    destruct (String.eqb_spec g "monthly"); [contradiction|]. reflexivity. }
  split; [repeat split|].
  split.
  { intros k Hk. unfold goalTypeToString, GOAL_TYPE_MAP.
    destruct (Z.eqb_spec k 0); [lia|].
    destruct (Z.eqb_spec k 1); [lia|].
    destruct (Z.eqb_spec k 2); [lia|]. reflexivity. }
  split; [intros g [<-|[<-|[<-|[]]]]; reflexivity|].
  split.
  { intros k Hk. assert (k = 0 \/ k = 1 \/ k = 2) as [->|[->| ->]] by lia;
      reflexivity. }
  split; [exact Hrange|].
  intros g n d e gc p s Hc.
  apply create_habit_goal_type_code in Hc. specialize (Hrange g). lia.
Qed.

End Client.

(* ================================================================= *)
(** ** Worked examples of the further properties *)

(** One hour into day 1. *)
Lemma get_date_timestamp_rounds_down_witness :
  exists d,
    get_date_timestamp 90000000 = Ok d /\
    d mod MS_PER_DAY = 0 /\
    d <= 90000000 < d + MS_PER_DAY /\
    get_date_timestamp d = Ok d.
Proof. apply (get_date_timestamp_rounds_down 90000000). lia. Defined.

(** The last millisecond of day 0 and the first of day 1. *)
Lemma get_date_timestamp_monotone_witness :
  0 <= 86400000 /\ (0 = 86400000 \/ 0 + MS_PER_DAY <= 86400000).
Proof.
  apply (get_date_timestamp_monotone 86399999 86400000 0 86400000);
    [reflexivity | reflexivity | lia].
Defined.

(** Created on day 0, looked at on day 3. *)
Lemma get_days_since_creation_value_witness :
  get_days_since_creation streak_habit (at_time alice 9 259200000) = Ok 3.
Proof.
  apply (get_days_since_creation_value streak_habit
           (at_time alice 9 259200000)); vm_compute; discriminate.
Defined.

(** Goal type 3 and a name that is not UTF-8: the goal type decides. *)
Lemma create_habit_rejects_witness :
  @create_habit example_natives bad_note [] [] 3 1 true
    (start (at_time alice 1 1000)) =
  Err (MoveAbort HabitContract E_INVALID_GOAL_TYPE).
Proof.
  apply (@create_habit_rejects example_natives bad_note [] [] 3 1 true
           (start (at_time alice 1 1000))).
  left. reflexivity.
Defined.

(** The first check-in of the scenario habit on day 1. *)
Lemma check_in_succeeds_iff_witness :
  exists r,
    @check_in example_natives fresh_habit [] (start (at_time alice 3 86400000))
    = Ok r.
Proof.
  apply (proj2 (@check_in_succeeds_iff example_natives fresh_habit []
                  (start (at_time alice 3 86400000))
                  ltac:(vm_compute; discriminate))).
  repeat split; try (vm_compute; discriminate).
  left. reflexivity.
Defined.

(** A last check-in on day 3 and a clock on day 2. *)
Lemma check_in_invalid_date_iff_witness :
  @check_in example_natives streak_habit []
    (start (at_time alice 3 172800000)) =
  Err (MoveAbort HabitContract E_INVALID_DATE).
Proof.
  apply (proj2 (@check_in_invalid_date_iff example_natives streak_habit []
                  (start (at_time alice 3 172800000))
                  ltac:(vm_compute; discriminate))).
  split; [vm_compute; discriminate|].
  exists 259200000. split; [reflexivity|].
  split; [vm_compute; discriminate | vm_compute; reflexivity].
Defined.

(** The byte [0xff] as notes. *)
Lemma check_in_bad_notes_iff_witness :
  @check_in example_natives fresh_habit bad_note
    (start (at_time alice 3 86400000)) =
  Err (MoveAbort StdString EINVALID_UTF8).
Proof.
  apply (proj2 (@check_in_bad_notes_iff example_natives fresh_habit bad_note
                  (start (at_time alice 3 86400000))
                  ltac:(vm_compute; discriminate))).
  repeat split; try (vm_compute; discriminate); reflexivity.
Defined.

(** [bob] checks in on the habit of [alice], with "Run" as notes. *)
Lemma check_in_receipt_witness :
  exists h' s',
    @check_in example_natives fresh_habit run_name
      (start (at_time bob 3 90000000)) = Ok (h', s') /\
    transferred s' =
      [(mkCheckIn 12884901888 4294967296 86400000 (Some run_name), bob)] /\
    last_checkin_date h' = Some 86400000.
Proof.
  destruct (@check_in example_natives fresh_habit run_name
              (start (at_time bob 3 90000000))) as [[h' s']|err] eqn:Hc;
    [|vm_compute in Hc; discriminate Hc].
  exists h', s'. split; [reflexivity|].
  destruct (@check_in_receipt example_natives fresh_habit run_name
              (start (at_time bob 3 90000000)) h' s' Hc)
    as (uid & Htr & Hl & ->).
  split; [exact Htr | exact Hl].
Defined.

(** What goes through for [alice] goes through for [bob] later that day. *)
Lemma check_in_any_sender_witness :
  exists h' s',
    @check_in example_natives fresh_habit []
      (start (at_time alice 3 86400000)) = Ok (h', s') /\
    exists s2',
      @check_in example_natives fresh_habit []
        (start (at_time bob 4 90000000)) = Ok (h', s2').
Proof.
  destruct (@check_in example_natives fresh_habit []
              (start (at_time alice 3 86400000))) as [[h' s']|err] eqn:Hc;
    [|vm_compute in Hc; discriminate Hc].
  exists h', s'. split; [reflexivity|].
  destruct (@check_in_any_sender example_natives fresh_habit []
              (start (at_time alice 3 86400000)) h' s'
              (start (at_time bob 4 90000000)) Hc
              ltac:(vm_compute; discriminate) eq_refl
              ltac:(vm_compute; discriminate))
    as (s2' & Hc2 & _).
  exists s2'. exact Hc2.
Defined.

(** A streak of 3 ending on day 3, continued on day 4. *)
Lemma consecutive_check_in_witness :
  exists h' s',
    @check_in example_natives streak_habit []
      (start (at_time alice 6 345600000)) = Ok (h', s') /\
    current_streak h' = 4 /\ longest_streak h' = 4.
Proof.
  destruct (@check_in example_natives streak_habit []
              (start (at_time alice 6 345600000))) as [[h' s']|err] eqn:Hc;
    [|vm_compute in Hc; discriminate Hc].
  exists h', s'. split; [reflexivity|].
  destruct (@consecutive_check_in example_natives streak_habit []
              (start (at_time alice 6 345600000)) h' s' eq_refl Hc)
    as (Hcs & Hls & _).
  split; [exact Hcs | exact Hls].
Defined.

(** A streak of 3 ending on day 3, and a check-in on day 6. *)
Lemma check_in_events_witness :
  exists h' s',
    @check_in example_natives streak_habit []
      (start (at_time alice 7 518400000)) = Ok (h', s') /\
    emitted s' =
      [StreakBroken 4294967296 3; CheckInRecorded 4294967296 518400000 1 4].
Proof.
  destruct (@check_in example_natives streak_habit []
              (start (at_time alice 7 518400000))) as [[h' s']|err] eqn:Hc;
    [|vm_compute in Hc; discriminate Hc].
  exists h', s'. split; [reflexivity|].
  destruct (@check_in_events example_natives streak_habit []
              (start (at_time alice 7 518400000)) h' s' Hc)
    as (broken & Hev & Hor & Hiff).
  assert (Hne : broken <> []).
  { apply Hiff. exists 259200000. split; vm_compute; reflexivity. }
  destruct Hor as [Hb|Hb]; [contradiction|].
  rewrite Hev, Hb. vm_compute in Hc. inversion Hc. reflexivity.
Defined.

(** The scenario habit, checked in on days 1, 2 and 3. *)
Lemma daily_checkins_streak_witness :
  exists h',
    record (@run example_natives fresh_ledger
              (checkins_at [86400000; 172800000; 259200000])) = Some h' /\
    current_streak h' = 3 /\ total_checkins h' = 3 /\
    longest_streak h' = 3 /\ last_checkin_date h' = Some 259200000.
Proof.
  apply (@daily_checkins_streak example_natives fresh_ledger fresh_habit
           86400000 (checkins_at [86400000; 172800000; 259200000])).
  - reflexivity.
  - reflexivity.
  - vm_compute. discriminate.
  - discriminate.
  - cbn [checkins_at map daily_checkins].
    repeat split; try (left; reflexivity); vm_compute; discriminate.
  - vm_compute. discriminate.
  - vm_compute. discriminate.
Defined.

(** [alice] renames her habit twice. *)
Lemma update_habit_idempotent_witness :
  exists h' s',
    update_habit fresh_habit (Some walk_name) None None
      (Some 1) None None (start (at_time alice 2 5000)) = Ok (h', s') /\
    exists s2',
      update_habit h' (Some walk_name) None None (Some 1)
        None None (start (at_time alice 3 6000)) = Ok (h', s2').
Proof.
  destruct (update_habit fresh_habit (Some walk_name) None
              None (Some 1) None None (start (at_time alice 2 5000)))
    as [[h' s']|err] eqn:Hu; [|vm_compute in Hu; discriminate Hu].
  exists h', s'. split; [reflexivity|].
  apply (update_habit_idempotent fresh_habit
           (Some walk_name) None None (Some 1) None None
           (start (at_time alice 2 5000)) h' s'
           (start (at_time alice 3 6000)) Hu).
  reflexivity.
Defined.

(** [alice] deletes her habit. *)
Lemma owner_delete_witness :
  @execute example_natives fresh_ledger DeleteCall (at_time alice 2 5000) =
  (mkLedger None [] [HabitCreated 4294967296 alice run_name;
                     HabitDeleted 4294967296], Success).
Proof.
  apply (@owner_delete example_natives fresh_ledger fresh_habit
           (at_time alice 2 5000)); reflexivity.
Defined.

(** The scenario habit after an update to goal type 2. *)
Lemma goal_type_valid_witness :
  exists h,
    record (fst (@execute example_natives fresh_ledger
                   (UpdateCall None None None (Some 2) None None)
                   (at_time alice 2 5000))) = Some h /\
    goal_type h = 2 /\ goal_type h <= GOAL_TYPE_MONTHLY.
Proof.
  eexists. split; [vm_compute; reflexivity|]. split; [reflexivity|].
  apply (@goal_type_valid example_natives
           (fst (@execute example_natives fresh_ledger
                   (UpdateCall None None None (Some 2) None None)
                   (at_time alice 2 5000)))).
  - apply (@reach_step example_natives fresh_ledger).
    apply (@reach_create example_natives run_name [] run_emoji 0 1 true
             (at_time alice 1 1000)).
    vm_compute. reflexivity.
  - vm_compute. reflexivity.
Defined.

(** The scenario habit after its check-in on day 1. *)
Lemma counters_agree_witness :
  exists h,
    record (@run example_natives fresh_ledger (checkins_at [86400000])) =
      Some h /\
    counters_consistent h.
Proof.
  eexists. split; [vm_compute; reflexivity|].
  apply (@counters_agree example_natives
           (@run example_natives fresh_ledger (checkins_at [86400000]))).
  - apply (@reach_step example_natives fresh_ledger (CheckInCall [])
             (at_time alice 3 86400000)).
    apply (@reach_create example_natives run_name [] run_emoji 0 1 true
             (at_time alice 1 1000)).
    vm_compute. reflexivity.
  - vm_compute. reflexivity.
Defined.

(** Three check-ins later the owner is still [alice]. *)
Lemma identity_immutable_witness :
  exists h,
    record (@run example_natives fresh_ledger
              (checkins_at [86400000; 172800000; 259200000])) = Some h /\
    owner h = alice /\ created_at h = 1000 /\
    exists h0, record fresh_ledger = Some h0 /\ id h = id h0.
Proof.
  eexists. split; [vm_compute; reflexivity|].
  apply (@identity_immutable example_natives run_name [] run_emoji 0 1 true
           (at_time alice 1 1000) fresh_ledger
           (checkins_at [86400000; 172800000; 259200000])).
  - vm_compute. reflexivity.
  - vm_compute. reflexivity.
Defined.

(** After a check-in on day 1: not again that day, again on day 2. *)
Lemma can_check_in_after_witness :
  exists h' s',
    @check_in example_natives fresh_habit []
      (start (at_time alice 3 86400000)) = Ok (h', s') /\
    can_check_in_today h' (at_time bob 4 90000000) = Ok false /\
    can_check_in_today h' (at_time bob 5 172800000) = Ok true.
Proof.
  destruct (@check_in example_natives fresh_habit []
              (start (at_time alice 3 86400000))) as [[h' s']|err] eqn:Hc;
    [|vm_compute in Hc; discriminate Hc].
  exists h', s'. split; [reflexivity|]. split.
  - apply (@can_check_in_after example_natives fresh_habit []
             (start (at_time alice 3 86400000)) h' s'
             (at_time bob 4 90000000) Hc).
    vm_compute. discriminate.
  - apply (@can_check_in_after example_natives fresh_habit []
             (start (at_time alice 3 86400000)) h' s'
             (at_time bob 5 172800000) Hc).
    vm_compute. discriminate.
Defined.

(** The log after check-ins on days 1 and 2. *)
Lemma log_tells_counters_witness :
  exists h,
    record (@run example_natives fresh_ledger
              (checkins_at [86400000; 172800000])) = Some h /\
    latest_checkin
      (log (@run example_natives fresh_ledger
              (checkins_at [86400000; 172800000]))) = recorded_state h /\
    recorded_state h = Some (172800000, 2, 2).
Proof.
  eexists. split; [vm_compute; reflexivity|].
  split; [|reflexivity].
  apply (@log_tells_counters example_natives
           (@run example_natives fresh_ledger
              (checkins_at [86400000; 172800000]))).
  - apply (@reach_step example_natives
             (@run example_natives fresh_ledger (checkins_at [86400000]))
             (CheckInCall []) (at_time alice 4 172800000)).
    apply (@reach_step example_natives fresh_ledger (CheckInCall [])
             (at_time alice 3 86400000)).
    apply (@reach_create example_natives run_name [] run_emoji 0 1 true
             (at_time alice 1 1000)).
    vm_compute. reflexivity.
  - vm_compute. reflexivity.
Defined.

(** Three check-ins, one a day: 100 over a period of 3 days. *)
Lemma completion_rate_full_witness :
  get_completion_rate streak_habit 3 = Ok 100 <->
  3 * goal_count streak_habit <= total_checkins streak_habit.
Proof.
  apply (completion_rate_full streak_habit 3); vm_compute;
    try reflexivity; discriminate.
Defined.

(** C5: the claim fails where the first call does not go through.  On the
    scenario habit, on day 1, a first call whose notes are not UTF-8 aborts
    in [string::utf8] and a second call that day then goes through; and
    once the habit has been checked in that day, the first of two further
    calls is rejected itself. *)
Lemma check_in_first_call_bad_notes :
  day_id 86400000 = day_id 90000000 /\
  @execute example_natives fresh_ledger (CheckInCall bad_note)
    (at_time alice 3 86400000) =
    (fresh_ledger, Failed (MoveAbort StdString EINVALID_UTF8)) /\
  snd (@execute example_natives fresh_ledger (CheckInCall [])
         (at_time alice 4 90000000)) = Success /\
  snd (@execute example_natives
         (fst (@execute example_natives fresh_ledger (CheckInCall [])
                 (at_time alice 4 90000000)))
         (CheckInCall []) (at_time alice 5 90000001)) =
    Failed (MoveAbort HabitContract E_ALREADY_CHECKED_IN).
Proof. repeat split; vm_compute; reflexivity. Qed.

(** On day 1 the scenario habit is checked in by [alice]; [bob] is rejected
    later that day, with notes that are not UTF-8 as well. *)
Lemma check_in_twice_same_day_witness :
  snd (@execute example_natives fresh_ledger (CheckInCall [])
         (at_time alice 3 86400000)) = Success /\
  @execute example_natives
    (fst (@execute example_natives fresh_ledger (CheckInCall [])
            (at_time alice 3 86400000)))
    (CheckInCall bad_note) (at_time bob 4 90000000) =
  (fst (@execute example_natives fresh_ledger (CheckInCall [])
          (at_time alice 3 86400000)),
   Failed (MoveAbort HabitContract E_ALREADY_CHECKED_IN)).
Proof.
  destruct (@check_in_twice_same_day example_natives fresh_ledger fresh_habit
              [] bad_note (at_time alice 3 86400000) (at_time bob 4 90000000)
              eq_refl ltac:(vm_compute; discriminate) eq_refl)
    as (Hiff & Hsecond & _).
  assert (Hok : snd (@execute example_natives fresh_ledger (CheckInCall [])
                       (at_time alice 3 86400000)) = Success).
  { apply Hiff. repeat split; try (vm_compute; discriminate).
    left. reflexivity. }
  split; [exact Hok | exact (Hsecond Hok)].
Defined.

